(** * docker-enforce: a shallow embedding of [scripts/enforce.ts]

    The development follows the TypeScript source top to bottom: the
    configuration record and its defaults, the table of intercept patterns,
    the four helpers ([loadConfig], [shouldIntercept], [isAllowed],
    [isContainerRunning]), the two message printers, [enforce], and the
    command-line entry point [main].

    Strings are JavaScript strings: finite sequences of UTF-16 code units.
    Console output and [process.exit] are modelled by a small writer monad
    with early exit.  The file system and the container runtime are the two
    pieces of the outside world the script reads; they are collected in the
    record [Env]. *)

From Stdlib Require Import NArith String Ascii.
From stdpp Require Import base decidable option list.

Local Open Scope N_scope.

(** ** JavaScript strings *)

(** A string is the list of its code units. *)
Abbreviation jsstring := (list N).

(** [lit] turns a literal of the source into its code units. *)
Fixpoint lit (s : string) : jsstring :=
  match s with
  | EmptyString => []
  | String a s' => N_of_ascii a :: lit s'
  end.
Arguments lit s%_string : simpl never.

(** Characters that the source writes with an escape. *)
Definition ESC : jsstring := [27].      (* \x1b *)
Definition LF : N := 10.                (* \n *)
Definition DQUOTE : jsstring := [34].   (* the double quote *)
Definition SPACE : jsstring := [32].    (* ' ' *)

(** [Boolean(s)] for a string: only the empty string is falsy. *)
Definition truthyString (s : jsstring) : bool :=
  match s with [] => false | _ :: _ => true end.

(** [Boolean(v)] for [string | undefined]. *)
Definition truthy (v : option jsstring) : bool :=
  match v with Some s => truthyString s | None => false end.

(** [String.prototype.startsWith]. *)
Definition startsWith (s p : jsstring) : bool := bool_decide (p `prefix_of` s).

(** [String.prototype.split] with a one-character separator. *)
Fixpoint split (sep : N) (s : jsstring) : list jsstring :=
  match s with
  | [] => [[]]
  | c :: s' =>
      if bool_decide (c = sep) then [] :: split sep s'
      else match split sep s' with
           | piece :: pieces => (c :: piece) :: pieces
           | [] => [[c]]
           end
  end.

(** [Array.prototype.join]. *)
Fixpoint joinWith (sep : jsstring) (l : list jsstring) : jsstring :=
  match l with
  | [] => []
  | [x] => x
  | x :: l' => x ++ sep ++ joinWith sep l'
  end.

(** [Array.prototype.includes] on an array of strings. *)
Definition includes (l : list jsstring) (x : jsstring) : bool :=
  bool_decide (x ∈ l).

(** [array.filter(Boolean)] on an array of [string | undefined]. *)
Fixpoint filterBoolean (l : list (option jsstring)) : list jsstring :=
  match l with
  | [] => []
  | Some s :: l' => if truthyString s then s :: filterBoolean l' else filterBoolean l'
  | None :: l' => filterBoolean l'
  end.

(** ** Regular expressions

    The seven patterns of the source use literals, [\s], [+], grouping and
    alternation, and all of them are anchored with [^].  They are written
    here as terms of [RegExp]; [test] decides whether some prefix of the
    subject belongs to the language, which is what [RegExp.prototype.test]
    answers for an anchored pattern without flags. *)

Inductive RegExp : Type :=
  | Void                           (* no string at all *)
  | Eps                            (* the empty string *)
  | Chr (c : N)                    (* one given code unit *)
  | Cls (p : N -> bool)            (* a character class *)
  | Cat (r1 r2 : RegExp)           (* r1 r2 *)
  | Alt (r1 r2 : RegExp)           (* r1|r2 *)
  | Star (r : RegExp).             (* r* *)

(** [r+] *)
Definition Plus (r : RegExp) : RegExp := Cat r (Star r).

(** A literal word. *)
Fixpoint word (s : jsstring) : RegExp :=
  match s with
  | [] => Eps
  | c :: s' => Cat (Chr c) (word s')
  end.

(** [(w1|w2|...|wn)] *)
Fixpoint oneOf (ws : list jsstring) : RegExp :=
  match ws with
  | [] => Void
  | w :: ws' => Alt (word w) (oneOf ws')
  end.

(** The class [\s] of ECMAScript: WhiteSpace and LineTerminator. *)
Definition isWhiteSpace (c : N) : bool :=
  bool_decide (c ∈ [9; 10; 11; 12; 13; 32; 160; 5760; 8232; 8233; 8239; 8287; 12288; 65279])
  || ((8192 <=? c) && (c <=? 8202)).

Definition ws : RegExp := Cls isWhiteSpace.

(** The language of a pattern. *)
Inductive matches : RegExp -> jsstring -> Prop :=
  | m_eps : matches Eps []
  | m_chr c : matches (Chr c) [c]
  | m_cls p c : p c = true -> matches (Cls p) [c]
  | m_cat r1 r2 s1 s2 : matches r1 s1 -> matches r2 s2 -> matches (Cat r1 r2) (s1 ++ s2)
  | m_alt_l r1 r2 s : matches r1 s -> matches (Alt r1 r2) s
  | m_alt_r r1 r2 s : matches r2 s -> matches (Alt r1 r2) s
  | m_star_nil r : matches (Star r) []
  | m_star_cons r s1 s2 : matches r s1 -> matches (Star r) s2 -> matches (Star r) (s1 ++ s2).

(** Does the pattern accept the empty string? *)
Fixpoint nullable (r : RegExp) : bool :=
  match r with
  | Void => false
  | Eps => true
  | Chr _ => false
  | Cls _ => false
  | Cat r1 r2 => nullable r1 && nullable r2
  | Alt r1 r2 => nullable r1 || nullable r2
  | Star _ => true
  end.

(** What is left of the pattern after reading [c]. *)
Fixpoint deriv (c : N) (r : RegExp) : RegExp :=
  match r with
  | Void => Void
  | Eps => Void
  | Chr d => if bool_decide (c = d) then Eps else Void
  | Cls p => if p c then Eps else Void
  | Cat r1 r2 =>
      if nullable r1 then Alt (Cat (deriv c r1) r2) (deriv c r2)
      else Cat (deriv c r1) r2
  | Alt r1 r2 => Alt (deriv c r1) (deriv c r2)
  | Star r' => Cat (deriv c r') (Star r')
  end.

(** [/^r/.test(s)]: some prefix of [s] matches [r]. *)
Fixpoint test (r : RegExp) (s : jsstring) : bool :=
  nullable r ||
  match s with
  | [] => false
  | c :: s' => test (deriv c r) s'
  end.

(** ** Configuration *)

(** The value of the field [enforcement].  [loadConfig] casts the parsed
    file to the interface without checking it, so besides the four modes of
    the interface the field can hold any other value; [mode_unrecognized]
    stands for all of them (the code only ever compares the field with the
    four mode strings). *)
Inductive Enforcement : Type :=
  | mode_block | mode_warn | mode_transform | mode_disabled
  | mode_unrecognized.

(** The keys of [interceptPatterns]. *)
Inductive Tool : Type := npm | npx | yarn | pnpm | node | tsx | bun.

Global Instance Tool_eq_dec : EqDecision Tool.
Proof. solve_decision. Defined.

Global Instance Enforcement_eq_dec : EqDecision Enforcement.
Proof. solve_decision. Defined.

(** [interface DockerConfig]: every field is optional.  The object
    [interceptPatterns] is kept as the list of its own entries, in the
    order [Object.entries] yields them; a tool that the object does not
    mention has no entry.  As the interface declares, its keys are the
    seven tools and its values are booleans. *)
Record DockerConfig : Type := {
  containerName : option jsstring;
  enforcement : option Enforcement;
  allowedHostCommands : option (list jsstring);
  interceptPatterns : option (list (Tool * bool));
}.

Definition DEFAULT_CONFIG : DockerConfig := {|
  containerName := None;
  enforcement := Some mode_block;
  allowedHostCommands := Some [];
  interceptPatterns :=
    Some [(npm, true); (npx, true); (yarn, true); (pnpm, true);
          (node, true); (tsx, true); (bun, true)];
|}.

Definition INTERCEPT_PATTERNS (tool : Tool) : RegExp :=
  match tool with
  | npm => Cat (word (lit "npm")) (Cat (Plus ws)
             (oneOf [lit "install"; lit "ci"; lit "run"; lit "test";
                     lit "exec"; lit "start"; lit "build"]))
  | npx => Cat (word (lit "npx")) (Plus ws)
  | yarn => Cat (word (lit "yarn")) (Cat (Plus ws)
             (oneOf [lit "add"; lit "install"; lit "run"; lit "start"; lit "build"]))
  | pnpm => Cat (word (lit "pnpm")) (Cat (Plus ws)
             (oneOf [lit "add"; lit "install"; lit "run"; lit "start"; lit "build"]))
  | node => Cat (word (lit "node")) (Plus ws)
  | tsx => Cat (word (lit "tsx")) (Plus ws)
  | bun => Cat (word (lit "bun")) (Cat (Plus ws)
             (oneOf [lit "run"; lit "install"; lit "add"]))
  end.

(** ANSI color codes *)
Module colors.
Definition red : jsstring := ESC ++ lit "[31m".
Definition yellow : jsstring := ESC ++ lit "[33m".
Definition green : jsstring := ESC ++ lit "[32m".
Definition blue : jsstring := ESC ++ lit "[34m".
Definition reset : jsstring := ESC ++ lit "[0m".
End colors.

(** [{ ...a, ...b }]: a field that [b] has wins, the others come from [a]. *)
Definition spreadField {A} (a b : option A) : option A :=
  match b with Some v => Some v | None => a end.

Definition spread (a b : DockerConfig) : DockerConfig := {|
  containerName := spreadField (containerName a) (containerName b);
  enforcement := spreadField (enforcement a) (enforcement b);
  allowedHostCommands := spreadField (allowedHostCommands a) (allowedHostCommands b);
  interceptPatterns := spreadField (interceptPatterns a) (interceptPatterns b);
|}.

(** ** The outside world *)

(** What [loadConfig] finds at the configuration path: no file, a file that
    cannot be read or parsed, or a file that parses to a configuration. *)
Inductive ConfigFile : Type :=
  | Missing
  | Unreadable
  | Parsed (config : DockerConfig).

(** The environment of one run of the script.  [cwd] is [process.cwd()];
    [join] is [path.join] applied to three segments; [fileAt path] is the
    state of the file at [path]; [dockerPs] is what [execSync] of the
    listing command gives back: its standard output, or [None] when the
    call throws (the runtime is missing, the command exits with a non-zero
    status, ...). *)
Record Env : Type := {
  cwd : jsstring;
  join : jsstring -> jsstring -> jsstring -> jsstring;
  fileAt : jsstring -> ConfigFile;
  dockerPs : option jsstring;
}.

(** ** Console output and process exit *)

Inductive Stream : Type := stdout | stderr.

Global Instance Stream_eq_dec : EqDecision Stream.
Proof. solve_decision. Defined.

Abbreviation Output := (list (Stream * jsstring)).

Inductive Outcome (A : Type) : Type :=
  | Done (a : A)
  | Exited (code : nat).
Arguments Done {A} a.
Arguments Exited {A} code.

(** A computation yields a value or stops the process, and in both cases
    has printed some lines. *)
Definition Proc (A : Type) : Type := Outcome A * Output.

Global Instance Proc_ret : MRet Proc := fun A a => (Done a, []).

Global Instance Proc_bind : MBind Proc := fun A B f m =>
  match m with
  | (Done a, out) => let '(r, out') := f a in (r, out ++ out')
  | (Exited code, out) => (Exited code, out)
  end.

Definition console_log (line : jsstring) : Proc unit := (Done tt, [(stdout, line)]).
Definition console_error (line : jsstring) : Proc unit := (Done tt, [(stderr, line)]).
Definition process_exit {A} (code : nat) : Proc A := (Exited code, []).

(** The exit status of the process and everything it printed. *)
Definition run (p : Proc unit) : nat * Output :=
  match p with
  | (Done _, out) => (0%nat, out)
  | (Exited code, out) => (code, out)
  end.

(** ** The helpers of the source *)

(** [join(projectPath, '.claude', 'docker-config.json')], where an absent
    [projectPath] stands for [process.cwd()]. *)
Definition configPathOf (projectPath : option jsstring) (env : Env) : jsstring :=
  join env (default (cwd env) projectPath) (lit ".claude") (lit "docker-config.json").

Definition loadConfig (projectPath : option jsstring) (env : Env) : Proc DockerConfig :=
  let configPath := configPathOf projectPath env in
  match fileAt env configPath with
  | Missing => mret DEFAULT_CONFIG
  | Parsed config => mret (spread DEFAULT_CONFIG config)
  | Unreadable =>
      console_error (colors.yellow ++ lit "Warning: Could not parse " ++ configPath
                     ++ colors.reset) ;;
      mret DEFAULT_CONFIG
  end.

(** The loop of [shouldIntercept] over [Object.entries(patterns)]. *)
Fixpoint anyEntry (command : jsstring) (entries : list (Tool * bool)) : bool :=
  match entries with
  | [] => false
  | (tool, enabled) :: rest =>
      if enabled && test (INTERCEPT_PATTERNS tool) command then true
      else anyEntry command rest
  end.

Definition shouldIntercept (command : jsstring) (config : DockerConfig) : bool :=
  let patterns :=
    match interceptPatterns config with
    | Some p => p
    | None => default [] (interceptPatterns DEFAULT_CONFIG)
    end in
  anyEntry command patterns.

(** The loop of [isAllowed] over the allow-list. *)
Fixpoint anyAllowed (command : jsstring) (allowed : list jsstring) : bool :=
  match allowed with
  | [] => false
  | allowedCmd :: rest =>
      if bool_decide (command = allowedCmd) || startsWith command (allowedCmd ++ SPACE)
      then true
      else anyAllowed command rest
  end.

Definition isAllowed (command : jsstring) (config : DockerConfig) : bool :=
  let allowed := default [] (allowedHostCommands config) in
  anyAllowed command allowed.

Definition isContainerRunning (containerName : jsstring) (env : Env) : bool :=
  match dockerPs env with
  | Some output => includes (split LF output) containerName
  | None => false
  end.

(** A template literal prints an absent value as the word [undefined]. *)
Definition str (v : option jsstring) : jsstring :=
  match v with Some s => s | None => lit "undefined" end.

(** [if (v) yes else no] for [v : string | undefined]; in the first branch
    the value is known to be a string. *)
Definition ifTruthy {A} (v : option jsstring) (yes : jsstring -> A) (no : A) : A :=
  match v with
  | Some (c :: s) => yes (c :: s)
  | _ => no
  end.

Definition showBlockMessage (command : jsstring) (containerName : option jsstring)
  : Proc unit :=
  console_error (colors.red ++ lit "ERROR: Docker-first policy violation detected!"
                 ++ colors.reset) ;;
  console_error [] ;;
  console_error (lit "Command: " ++ colors.blue ++ command ++ colors.reset) ;;
  console_error (lit "Reason:  Package manager commands must run inside Docker") ;;
  console_error [] ;;
  ifTruthy containerName
    (fun containerName =>
       console_error (lit "Suggested command:") ;;
       console_error (lit "  " ++ colors.green ++ lit "docker exec " ++ containerName
                      ++ lit " " ++ command ++ colors.reset))
    (console_error (lit "Configure containerName in .claude/docker-config.json first")) ;;
  console_error [] ;;
  console_error
    (lit "To allow this command on host, add to .claude/docker-config.json:") ;;
  console_error (lit "  " ++ DQUOTE ++ lit "allowedHostCommands" ++ DQUOTE ++ lit ": ["
                 ++ DQUOTE ++ command ++ DQUOTE ++ lit "]").

Definition showWarning (command : jsstring) (containerName : option jsstring)
  : Proc unit :=
  console_error (colors.yellow
                 ++ lit "WARNING: Running package manager on host instead of Docker"
                 ++ colors.reset) ;;
  ifTruthy containerName
    (fun containerName =>
       console_error (lit "Recommended: " ++ colors.green ++ lit "docker exec "
                      ++ containerName ++ lit " " ++ command ++ colors.reset))
    (mret tt) ;;
  console_error (lit "Proceeding anyway...").

(** ** The decision *)

Inductive Action : Type := act_allow | act_block | act_warn | act_transform.

Global Instance Action_eq_dec : EqDecision Action.
Proof. solve_decision. Defined.

Record EnforceResult : Type := {
  action : Action;
  message : option jsstring;
  transformedCommand : option jsstring;
}.

Definition allowResult : EnforceResult :=
  {| action := act_allow; message := None; transformedCommand := None |}.

Definition enforce (command : jsstring) (projectPath : option jsstring) (env : Env)
  : Proc EnforceResult :=
  config ← loadConfig projectPath env;
  (* Check if enforcement is disabled *)
  if bool_decide (enforcement config = Some mode_disabled) then mret allowResult
  (* Check if command should be intercepted *)
  else if negb (shouldIntercept command config) then mret allowResult
  (* Check if command is explicitly allowed *)
  else if isAllowed command config then mret allowResult
  else
    let containerName := containerName config in
    (* Apply enforcement policy *)
    match enforcement config with
    | Some mode_block =>
        showBlockMessage command containerName ;;
        mret {| action := act_block;
                message := Some (lit "Docker-first policy violation");
                transformedCommand := None |}
    | Some mode_warn =>
        showWarning command containerName ;;
        mret {| action := act_warn; message := None; transformedCommand := None |}
    | Some mode_transform =>
        ifTruthy containerName
          (fun containerName =>
             if negb (isContainerRunning containerName env) then
               console_error (colors.red ++ lit "ERROR: Container '" ++ containerName
                              ++ lit "' is not running" ++ colors.reset) ;;
               console_error (lit "Start it with: " ++ colors.green
                              ++ lit "docker compose up -d" ++ colors.reset) ;;
               mret {| action := act_block;
                       message := Some (lit "Container not running");
                       transformedCommand := None |}
             else
               let transformedCommand :=
                 lit "docker exec " ++ containerName ++ lit " " ++ command in
               console_error (colors.blue ++ lit "Transforming to:" ++ colors.reset
                              ++ lit " " ++ transformedCommand) ;;
               mret {| action := act_transform;
                       message := None;
                       transformedCommand := Some transformedCommand |})
          (console_error (colors.red
                          ++ lit "ERROR: Cannot transform - no containerName configured"
                          ++ colors.reset) ;;
           mret {| action := act_block;
                   message := Some (lit "No container configured");
                   transformedCommand := None |})
    | _ => mret allowResult
    end.

(** ** The command line

    [args] is [process.argv.slice(2)], and [action_arg] is the variable
    [action] of [main] (the name [action] is the field of the result). *)

Definition main_check (command : jsstring) (env : Env) : Proc unit :=
  (if negb (truthyString command) then
     console_error (lit "Usage: enforce.ts check <command>") ;;
     process_exit 1
   else mret tt) ;;
  config ← loadConfig None env;
  if shouldIntercept command config && negb (isAllowed command config) then
    console_log (lit "WOULD_BLOCK: " ++ command) ;;
    process_exit 1
  else
    console_log (lit "ALLOWED: " ++ command) ;;
    process_exit 0.

Definition main_validate (env : Env) : Proc unit :=
  config ← loadConfig None env;
  ifTruthy (containerName config)
    (fun containerName =>
       if isContainerRunning containerName env then
         console_log (lit "OK: Container '" ++ containerName ++ lit "' is running") ;;
         process_exit 0
       else
         console_log (lit "ERROR: Container '" ++ containerName
                      ++ lit "' is not running") ;;
         process_exit 1)
    (console_log (lit "ERROR: No container configured") ;;
     process_exit 1).

Definition main_transform (command : jsstring) (env : Env) : Proc unit :=
  (if negb (truthyString command) then
     console_error (lit "Usage: enforce.ts transform <command>") ;;
     process_exit 1
   else mret tt) ;;
  config ← loadConfig None env;
  ifTruthy (containerName config)
    (fun containerName =>
       console_log (lit "docker exec " ++ containerName ++ lit " " ++ command))
    (console_error (lit "ERROR: No container configured") ;;
     process_exit 1).

(** The constant [cmd] of the last case of [main]. *)
Definition enforceCmd (action_arg : option jsstring) (command : jsstring) : jsstring :=
  if bool_decide (action_arg = Some (lit "enforce")) then command
  else joinWith SPACE (filterBoolean [action_arg; Some command]).

Definition main_enforce (action_arg : option jsstring) (command : jsstring) (env : Env)
  : Proc unit :=
  let cmd := enforceCmd action_arg command in
  (if negb (truthyString cmd) then
     console_error (lit "Usage: enforce.ts [enforce] <command>") ;;
     process_exit 1
   else mret tt) ;;
  result ← enforce cmd None env;
  if bool_decide (action result = act_block) then process_exit 1 else mret tt.

Definition main (args : list jsstring) (env : Env) : Proc unit :=
  let action_arg := head args in
  let command := joinWith SPACE (tail args) in
  if bool_decide (action_arg = Some (lit "check")) then main_check command env
  else if bool_decide (action_arg = Some (lit "validate")) then main_validate env
  else if bool_decide (action_arg = Some (lit "transform")) then main_transform command env
  else main_enforce action_arg command env.

(** ** Auxiliary notions for the statements *)

(** The prefixes of [s] that are followed by a space in [s]: the strings
    [p] with [s.startsWith(p + ' ')]. *)
Fixpoint spacePrefixes (s : jsstring) : list jsstring :=
  match s with
  | [] => []
  | c :: s' =>
      (if bool_decide (c = 32) then [[]] else []) ++ map (cons c) (spacePrefixes s')
  end.




(** The word a pattern of the table starts with. *)
Definition toolName (tool : Tool) : jsstring :=
  match tool with
  | npm => lit "npm" | npx => lit "npx" | yarn => lit "yarn" | pnpm => lit "pnpm"
  | node => lit "node" | tsx => lit "tsx" | bun => lit "bun"
  end.

(** The two tests that stand between a command and the policy: it matches
    an enabled pattern and the allow-list does not exempt it. *)
Definition subjectToPolicy (command : jsstring) (config : DockerConfig) : bool :=
  shouldIntercept command config && negb (isAllowed command config).

(** The two tests of the [transform] case: a container name is configured
    (and not empty) and the status check finds it running. *)
Definition containerReady (config : DockerConfig) (env : Env) : bool :=
  match containerName config with
  | Some name => truthyString name && isContainerRunning name env
  | None => false
  end.

(** Every line of the output went to standard error. *)
Definition onStderr (out : Output) : Prop := Forall (fun line => fst line = stderr) out.

(** ** Sample environments

    A project directory [/work] on a POSIX system, whose configuration file
    is in the given state, and a container runtime that answers the listing
    call with the given output (or fails). *)
Definition sampleEnv (file : ConfigFile) (ps : option jsstring) : Env := {|
  cwd := lit "/work";
  join := fun a b c => a ++ lit "/" ++ b ++ lit "/" ++ c;
  fileAt := fun _ => file;
  dockerPs := ps;
|}.

(** A configuration file that sets the given fields and nothing else. *)
Definition fileWith (name : option jsstring) (mode : option Enforcement)
    (allowed : option (list jsstring)) (patterns : option (list (Tool * bool)))
  : ConfigFile :=
  Parsed {| containerName := name; enforcement := mode;
            allowedHostCommands := allowed; interceptPatterns := patterns |}.

(** * Properties *)

(** ** The writer monad *)

Section proc.
Context {A B : Type}.
Implicit Types (m : Proc A) (f : A -> Proc B).

Lemma bind_done m f a out :
  m = (Done a, out) -> m ≫= f = (fst (f a), out ++ snd (f a)).
Proof. intros ->. unfold mbind, Proc_bind. by destruct (f a). Qed.

Lemma bind_exited m f code out :
  m = (Exited code, out) -> m ≫= f = (Exited code, out).
Proof. by intros ->. Qed.

Lemma fst_bind_done m f a : fst m = Done a -> fst (m ≫= f) = fst (f a).
Proof. destruct m as [r out]. cbn [fst]. intros ->. by erewrite bind_done. Qed.

Lemma fst_bind_exited m f code : fst m = Exited code -> fst (m ≫= f) = Exited code.
Proof. destruct m as [r out]. cbn [fst]. by intros ->. Qed.
End proc.

Lemma run_exited (p : Proc unit) code : fst p = Exited code -> fst (run p) = code.
Proof. destruct p as [[[]|c] out]; cbn; congruence. Qed.

Lemma run_done (p : Proc unit) : fst p = Done tt -> fst (run p) = 0%nat.
Proof. destruct p as [[[]|c] out]; cbn; congruence. Qed.

(** ** Strings *)

Lemma truthyString_true s : truthyString s = true <-> s ≠ [].
Proof. by destruct s. Qed.

Lemma startsWith_spec s p : startsWith s p = true <-> ∃ k, s = p ++ k.
Proof. unfold startsWith. by rewrite bool_decide_eq_true. Qed.

(** [split] cuts at every separator and nowhere else: gluing the pieces
    back together with the separator restores the string, and no piece
    contains the separator. *)
Lemma split_nonempty sep s : split sep s ≠ [].
Proof.
  destruct s as [|c s]; [done|]. cbn [split].
  case_bool_decide; [done|]. by destruct (split sep s).
Qed.

Lemma joinWith_split sep s : joinWith [sep] (split sep s) = s.
Proof.
  induction s as [|c s IH]; [done|]. cbn [split].
  pose proof (split_nonempty sep s) as Hne.
  case_bool_decide as Hc.
  - subst c. destruct (split sep s) as [|p ps]; [done|].
    change (joinWith [sep] ([] :: p :: ps)) with (sep :: joinWith [sep] (p :: ps)).
    by rewrite IH.
  - destruct (split sep s) as [|p ps]; [done|].
    destruct ps as [|q ps]; cbn in IH |- *; by rewrite <- IH.
Qed.

Lemma split_pieces sep s piece : piece ∈ split sep s -> sep ∉ piece.
Proof.
  revert piece. induction s as [|c s IH]; intros piece; cbn [split].
  - intros ->%list_elem_of_singleton. apply not_elem_of_nil.
  - case_bool_decide as Hc.
    + intros [->|Hin]%elem_of_cons; [apply not_elem_of_nil | by apply IH].
    + destruct (split sep s) as [|p ps].
      * intros ->%list_elem_of_singleton.
        intros [?|[]%not_elem_of_nil]%elem_of_cons. congruence.
      * intros [->|Hin]%elem_of_cons.
        -- intros [?|Hp]%elem_of_cons; [congruence|].
           by apply (IH p); [left|].
        -- apply IH. by right.
Qed.

(** ** Regular expressions: [test] decides the language *)

Lemma matches_cat_inv r1 r2 s :
  matches (Cat r1 r2) s -> ∃ s1 s2, s = s1 ++ s2 ∧ matches r1 s1 ∧ matches r2 s2.
Proof. inversion 1; subst; eauto. Qed.

Lemma matches_alt_inv r1 r2 s :
  matches (Alt r1 r2) s -> matches r1 s ∨ matches r2 s.
Proof. inversion 1; subst; eauto. Qed.

Lemma nullable_spec r : nullable r = true <-> matches r [].
Proof.
  induction r as [| | c | p | r1 IH1 r2 IH2 | r1 IH1 r2 IH2 | r IH]; cbn [nullable].
  - split; [done | inversion 1].
  - split; [constructor | done].
  - split; [done | inversion 1].
  - split; [done | inversion 1].
  - rewrite andb_true_iff, IH1, IH2. split.
    + intros [H1 H2]. apply (m_cat _ _ [] []); done.
    + intros (s1 & s2 & Hs & H1 & H2)%matches_cat_inv.
      symmetry in Hs. apply app_eq_nil in Hs as [-> ->]. done.
  - rewrite orb_true_iff, IH1, IH2. split.
    + intros [H|H]; [by apply m_alt_l | by apply m_alt_r].
    + apply matches_alt_inv.
  - split; [constructor | done].
Qed.

(** A match of [r*] that starts with [c] begins with a match of [r] that
    starts with [c]. *)
Lemma matches_star_cons_inv r c s :
  matches (Star r) (c :: s) ->
  ∃ s1 s2, s = s1 ++ s2 ∧ matches r (c :: s1) ∧ matches (Star r) s2.
Proof.
  intros H. remember (Star r) as r' eqn:Hr. remember (c :: s) as t eqn:Ht.
  revert Hr s Ht.
  induction H as [ | | | | | | | r0 s1 s2 H1 _ H2 IH2 ]; intros Hr s' Ht; try done.
  simplify_eq. destruct s1 as [|d s1].
  - by apply IH2.
  - cbn in Ht. simplify_eq. eauto.
Qed.

Lemma deriv_spec c r s : matches (deriv c r) s <-> matches r (c :: s).
Proof.
  revert s.
  induction r as [| | d | p | r1 IH1 r2 IH2 | r1 IH1 r2 IH2 | r IH];
    intros s; cbn [deriv].
  - split; inversion 1.
  - split; inversion 1.
  - case_bool_decide as Hc.
    + subst d. split; inversion 1; subst; constructor.
    + split; inversion 1; subst; done.
  - destruct (p c) eqn:Hp.
    + split; inversion 1; subst; by constructor.
    + split; inversion 1; subst; congruence.
  - assert (matches (Cat (deriv c r1) r2) s ->
            matches (Cat r1 r2) (c :: s)) as Hleft.
    { intros (s1 & s2 & -> & H1 & H2)%matches_cat_inv.
      apply IH1 in H1. by apply (m_cat _ _ (c :: s1) s2). }
    destruct (nullable r1) eqn:Hn.
    + split.
      * intros [H|H]%matches_alt_inv; [by apply Hleft|].
        apply nullable_spec in Hn. apply IH2 in H.
        by apply (m_cat _ _ [] (c :: s)).
      * intros (s1 & s2 & Hs & H1 & H2)%matches_cat_inv.
        destruct s1 as [|d s1]; cbn in Hs; simplify_eq.
        -- apply m_alt_r. by apply IH2.
        -- apply m_alt_l. apply m_cat; [by apply IH1 | done].
    + split; [done|].
      intros (s1 & s2 & Hs & H1 & H2)%matches_cat_inv.
      destruct s1 as [|d s1]; cbn in Hs; simplify_eq.
      * apply nullable_spec in H1. congruence.
      * apply m_cat; [by apply IH1 | done].
  - split.
    + intros [H|H]%matches_alt_inv; [apply m_alt_l, IH1 | apply m_alt_r, IH2]; done.
    + intros [H|H]%matches_alt_inv; [apply m_alt_l, IH1 | apply m_alt_r, IH2]; done.
  - split.
    + intros (s1 & s2 & -> & H1 & H2)%matches_cat_inv.
      apply IH in H1. by apply (m_star_cons _ (c :: s1) s2).
    + intros (s1 & s2 & -> & H1 & H2)%matches_star_cons_inv.
      apply m_cat; [by apply IH | done].
Qed.

(** [test r s] holds exactly when a prefix of [s] is in the language of [r]. *)
Lemma test_spec r s :
  test r s = true <-> ∃ p k, s = p ++ k ∧ matches r p.
Proof.
  revert r. induction s as [|c s IH]; intros r; cbn [test].
  - rewrite orb_false_r, nullable_spec. split.
    + intros H. by exists [], [].
    + intros (p & k & Hs & H). symmetry in Hs.
      apply app_eq_nil in Hs as [-> ->]. done.
  - rewrite orb_true_iff, nullable_spec, IH. split.
    + intros [H | (p & k & -> & H)].
      * by exists [], (c :: s).
      * exists (c :: p), k. split; [done|]. by apply deriv_spec.
    + intros (p & k & Hs & H). destruct p as [|d p]; cbn in Hs.
      * by left.
      * simplify_eq. right. exists p, k. split; [done|]. by apply deriv_spec.
Qed.

Lemma matches_word w s : matches (word w) s <-> s = w.
Proof.
  revert s. induction w as [|c w IH]; intros s; cbn [word].
  - split; [by inversion 1 | intros ->; constructor].
  - split.
    + intros (s1 & s2 & -> & H1 & H2)%matches_cat_inv.
      inversion H1; subst. apply IH in H2. by subst.
    + intros ->. apply (m_cat _ _ [c] w); [constructor | by apply IH].
Qed.

Lemma matches_oneOf ws' s : matches (oneOf ws') s <-> s ∈ ws'.
Proof.
  induction ws' as [|w ws' IH]; cbn [oneOf].
  - split; [inversion 1 | by intros ?%not_elem_of_nil].
  - rewrite elem_of_cons, <- IH, <- matches_word. split.
    + apply matches_alt_inv.
    + intros [H|H]; [by apply m_alt_l | by apply m_alt_r].
Qed.

(** No pattern of the table accepts the empty command. *)
Lemma test_nil tool : test (INTERCEPT_PATTERNS tool) [] = false.
Proof. by destruct tool. Qed.

Lemma matches_star_cls p s :
  matches (Star (Cls p)) s <-> Forall (fun c => p c = true) s.
Proof.
  split.
  - intros H. remember (Star (Cls p)) as r eqn:Hr. revert Hr.
    induction H as [ | | | | | | | r0 s1 s2 H1 _ H2 IH2 ]; intros Hr; try done.
    simplify_eq. inversion H1; subst. constructor; [done | by apply IH2].
  - induction 1 as [|c s Hc Hs IH]; [constructor|].
    apply (m_star_cons _ [c] s); [by constructor | done].
Qed.

Lemma matches_plus_cls p s :
  matches (Plus (Cls p)) s <-> s ≠ [] ∧ Forall (fun c => p c = true) s.
Proof.
  unfold Plus. split.
  - intros (s1 & s2 & -> & H1 & H2)%matches_cat_inv.
    inversion H1; subst. apply matches_star_cls in H2.
    split; [done | by constructor].
  - intros [Hne H]. destruct H as [|c s Hc Hs]; [done|].
    apply (m_cat _ _ [c] s); [by constructor | by apply matches_star_cls].
Qed.

(** The two shapes of the table: a word and white space, and a word, white
    space and one of several sub-commands. *)
Lemma test_word_ws w command :
  test (Cat (word w) (Plus ws)) command = true <->
  ∃ c rest, command = w ++ c :: rest ∧ isWhiteSpace c = true.
Proof.
  rewrite test_spec. split.
  - intros (p & k & -> & (s1 & s2 & -> & H1 & H2)%matches_cat_inv).
    apply matches_word in H1 as ->.
    apply matches_plus_cls in H2 as [Hne H].
    destruct H as [|c s Hc Hs]; [done|].
    exists c, (s ++ k). by rewrite <- !app_assoc.
  - intros (c & rest & -> & Hc).
    exists (w ++ [c]), rest. split; [by rewrite <- app_assoc|].
    apply m_cat; [by apply matches_word|].
    apply matches_plus_cls. split; [done|]. by repeat constructor.
Qed.

Lemma test_word_ws_oneOf w subs command :
  test (Cat (word w) (Cat (Plus ws) (oneOf subs))) command = true <->
  ∃ blanks sub rest,
    command = w ++ blanks ++ sub ++ rest
    ∧ blanks ≠ [] ∧ Forall (fun c => isWhiteSpace c = true) blanks ∧ sub ∈ subs.
Proof.
  rewrite test_spec. split.
  - intros (p & k & -> & (s1 & s2 & -> & H1 & H2)%matches_cat_inv).
    apply matches_word in H1 as ->.
    apply matches_cat_inv in H2 as (blanks & sub & -> & Hb & Hs).
    apply matches_plus_cls in Hb as [Hne Hb]. apply matches_oneOf in Hs.
    exists blanks, sub, k. by rewrite <- !app_assoc.
  - intros (blanks & sub & rest & -> & Hne & Hb & Hs).
    exists (w ++ blanks ++ sub), rest. split; [by rewrite <- !app_assoc|].
    apply m_cat; [by apply matches_word|].
    apply m_cat; [by apply matches_plus_cls | by apply matches_oneOf].
Qed.

(** An intercepted command starts with the name of the tool and a white
    space character, so no command matches the patterns of two tools. *)
Lemma test_toolName tool command :
  test (INTERCEPT_PATTERNS tool) command = true ->
  ∃ c rest, command = toolName tool ++ c :: rest ∧ isWhiteSpace c = true.
Proof.
  destruct tool; cbn [INTERCEPT_PATTERNS toolName];
    first [ intros H; by apply test_word_ws in H
          | intros (blanks & sub & rest & -> & Hne & Hb & _)%test_word_ws_oneOf;
            destruct Hb as [|c blanks Hc _]; [done|];
            exists c, (blanks ++ sub ++ rest); by rewrite <- ?app_assoc ].
Qed.

Lemma patterns_disjoint tool other command :
  test (INTERCEPT_PATTERNS tool) command = true ->
  test (INTERCEPT_PATTERNS other) command = true ->
  tool = other.
Proof.
  intros (c & rest & -> & _)%test_toolName (c' & rest' & H & _)%test_toolName.
  destruct tool, other; try done; vm_compute in H; discriminate H.
Qed.

(** ** The helpers *)

Lemma loadConfig_done projectPath env :
  ∃ config out, loadConfig projectPath env = (Done config, out).
Proof. unfold loadConfig. destruct (fileAt env _); eauto. Qed.

Lemma showBlockMessage_done command name : fst (showBlockMessage command name) = Done tt.
Proof. by destruct name as [[|c s]|]. Qed.

Lemma showWarning_done command name : fst (showWarning command name) = Done tt.
Proof. by destruct name as [[|c s]|]. Qed.

Lemma anyEntry_nil entries : anyEntry [] entries = false.
Proof.
  induction entries as [|[tool enabled] entries IH]; [done|].
  cbn [anyEntry]. by rewrite test_nil, andb_false_r.
Qed.

(** An intercepted command is not empty. *)
Lemma shouldIntercept_truthy command config :
  shouldIntercept command config = true -> truthyString command = true.
Proof.
  destruct command; [|done]. unfold shouldIntercept. by rewrite anyEntry_nil.
Qed.

Lemma anyEntry_spec command entries :
  anyEntry command entries = true <->
  ∃ tool, (tool, true) ∈ entries ∧ test (INTERCEPT_PATTERNS tool) command = true.
Proof.
  induction entries as [|[tool enabled] entries IH]; cbn [anyEntry].
  - split; [done | by intros (? & ?%not_elem_of_nil & _)].
  - destruct (enabled && test (INTERCEPT_PATTERNS tool) command) eqn:Hhit.
    + apply andb_true_iff in Hhit as [-> Hhit]. split; [|done].
      intros _. exists tool. split; [by left | done].
    + rewrite IH. split.
      * intros (t & Hin & Ht). exists t. split; [by right | done].
      * intros (t & [Heq|Hin]%elem_of_cons & Ht); [|by eauto].
        simplify_eq. by rewrite Ht in Hhit.
Qed.

Lemma anyAllowed_spec command allowed :
  anyAllowed command allowed = true <->
  ∃ entry, entry ∈ allowed ∧ (command = entry ∨ ∃ rest, command = entry ++ SPACE ++ rest).
Proof.
  induction allowed as [|entry allowed IH]; cbn [anyAllowed].
  - split; [done | by intros (? & ?%not_elem_of_nil & _)].
  - destruct (bool_decide (command = entry) || startsWith command (entry ++ SPACE))
      eqn:Hhit.
    + split; [|done]. intros _. exists entry. split; [by left|].
      apply orb_true_iff in Hhit as [Hhit|Hhit].
      * left. by apply bool_decide_eq_true in Hhit.
      * right. apply startsWith_spec in Hhit as [rest ->].
        exists rest. by rewrite <- app_assoc.
    + rewrite IH. split.
      * intros (e & Hin & He). exists e. split; [by right | done].
      * intros (e & [->|Hin]%elem_of_cons & He); [|by eauto].
        apply orb_false_iff in Hhit as [Hne Hpre].
        apply bool_decide_eq_false in Hne.
        destruct He as [->|[rest ->]]; [done|].
        assert (startsWith (entry ++ SPACE ++ rest) (entry ++ SPACE) = true) as Hp.
        { apply startsWith_spec. exists rest. by rewrite <- app_assoc. }
        congruence.
Qed.

(** ** The decision *)

(** C1. A command that matches an enabled intercept pattern and is not
    matched by the allow-list is blocked when the enforcement mode is
    [block]: [enforce] returns the action [block], and every command line
    that reaches the [enforce] case of [main] with this command exits with
    code 1. *)
Theorem block_mode_blocks command projectPath env config :
  fst (loadConfig projectPath env) = Done config ->
  enforcement config = Some mode_block ->
  shouldIntercept command config = true ->
  isAllowed command config = false ->
  fst (enforce command projectPath env)
  = Done {| action := act_block;
            message := Some (lit "Docker-first policy violation");
            transformedCommand := None |}
  ∧ (projectPath = None ->
     ∀ args,
       head args ≠ Some (lit "check") ->
       head args ≠ Some (lit "validate") ->
       head args ≠ Some (lit "transform") ->
       enforceCmd (head args) (joinWith SPACE (tail args)) = command ->
       fst (run (main args env)) = 1%nat).
Proof.
  intros Hc Hm Hi Ha.
  assert (fst (enforce command projectPath env)
          = Done {| action := act_block;
                    message := Some (lit "Docker-first policy violation");
                    transformedCommand := None |}) as Henf.
  { unfold enforce. rewrite (fst_bind_done _ _ _ Hc), Hm, Hi, Ha.
    rewrite bool_decide_false by done. cbn [negb].
    by rewrite (fst_bind_done _ _ _ (showBlockMessage_done _ _)). }
  split; [done|].
  intros -> args H1 H2 H3 Hcmd. unfold main.
  rewrite !bool_decide_false by done.
  unfold main_enforce. rewrite Hcmd.
  rewrite (shouldIntercept_truthy _ _ Hi). cbn [negb].
  apply run_exited.
  rewrite (fst_bind_done _ _ tt) by done.
  by rewrite (fst_bind_done _ _ _ Henf).
Qed.

Lemma block_mode_blocks_witness :
  let env := sampleEnv Missing None in
  action <$> (match fst (enforce (lit "npm install express") None env) with
              | Done r => Some r | Exited _ => None end) = Some act_block
  ∧ fst (run (main [lit "enforce"; lit "npm install express"] env)) = 1%nat
  ∧ fst (run (main [lit "npm"; lit "install"; lit "express"] env)) = 1%nat.
Proof.
  intros env.
  destruct (block_mode_blocks (lit "npm install express") None env DEFAULT_CONFIG)
    as [Henf Hcli]; [reflexivity .. |].
  split; [by rewrite Henf|].
  split; apply (Hcli eq_refl); vm_compute; congruence.
Defined.

(** C5. Under the enforcement mode [disabled], [enforce] allows every
    command, whatever the intercept patterns and the allow-list say. *)
Theorem disabled_mode_allows command projectPath env config :
  fst (loadConfig projectPath env) = Done config ->
  enforcement config = Some mode_disabled ->
  fst (enforce command projectPath env)
  = Done {| action := act_allow; message := None; transformedCommand := None |}.
Proof.
  intros Hc Hm.
  unfold enforce. rewrite (fst_bind_done _ _ _ Hc), Hm.
  by rewrite bool_decide_true.
Qed.

Lemma disabled_mode_allows_witness :
  let file := fileWith None (Some mode_disabled) None None in
  let config := spread DEFAULT_CONFIG
                  {| containerName := None; enforcement := Some mode_disabled;
                     allowedHostCommands := None; interceptPatterns := None |} in
  shouldIntercept (lit "npm install express") config = true
  ∧ isAllowed (lit "npm install express") config = false
  ∧ fst (enforce (lit "npm install express") None (sampleEnv file None))
    = Done allowResult.
Proof.
  intros file config.
  split; [reflexivity|]. split; [reflexivity|].
  apply (disabled_mode_allows (lit "npm install express") None (sampleEnv file None)
           config); reflexivity.
Defined.

(** C3. A command that is matched by the allow-list, because it equals an
    entry or begins with an entry followed by a space, is allowed by
    [enforce] under each of the four enforcement modes. *)
Theorem allow_listed_is_allowed command projectPath env config allowed entry :
  fst (loadConfig projectPath env) = Done config ->
  allowedHostCommands config = Some allowed ->
  entry ∈ allowed ->
  command = entry ∨ (∃ rest, command = entry ++ SPACE ++ rest) ->
  isAllowed command config = true
  ∧ (∀ mode, enforcement config = Some mode ->
             fst (enforce command projectPath env)
             = Done {| action := act_allow; message := None;
                       transformedCommand := None |}).
Proof.
  intros Hc Hl Hin Hm.
  assert (isAllowed command config = true) as Ha.
  { unfold isAllowed. rewrite Hl. apply anyAllowed_spec. eauto. }
  split; [done|].
  intros mode Hmode. unfold enforce. rewrite (fst_bind_done _ _ _ Hc), Ha.
  case_bool_decide; [done|].
  by destruct (shouldIntercept command config).
Qed.

Lemma allow_listed_is_allowed_witness :
  let env mode :=
    sampleEnv (fileWith (Some (lit "dev")) (Some mode) (Some [lit "npm run lint"]) None)
              (Some (lit "dev")) in
  let allowed mode :=
    fst (enforce (lit "npm run lint --fix") None (env mode)) = Done allowResult in
  allowed mode_block ∧ allowed mode_warn ∧ allowed mode_transform
  ∧ allowed mode_disabled.
Proof.
  intros env allowed.
  assert (∀ mode, allowed mode) as H; [|by repeat split].
  intros mode.
  destruct (allow_listed_is_allowed (lit "npm run lint --fix") None (env mode)
              (spread DEFAULT_CONFIG
                 {| containerName := Some (lit "dev"); enforcement := Some mode;
                    allowedHostCommands := Some [lit "npm run lint"];
                    interceptPatterns := None |})
              [lit "npm run lint"] (lit "npm run lint"))
    as [_ Hall]; [reflexivity | reflexivity | by left | | exact (Hall mode eq_refl)].
  right. by exists (lit "--fix").
Defined.

(** C6, as amended.  For an intercepted command that is not allow-listed,
    under the enforcement mode [transform]: when no container name is
    configured, or the configured name is the empty string, [enforce]
    returns the action [block] with the message [No container configured],
    whatever the status check reports; when a non-empty container name is
    configured and the status check reports it as not running, [enforce]
    returns the action [block] with the message [Container not running]. *)
Theorem transform_mode_blocks command projectPath env config :
  fst (loadConfig projectPath env) = Done config ->
  enforcement config = Some mode_transform ->
  shouldIntercept command config = true ->
  isAllowed command config = false ->
  (containerName config = None ∨ containerName config = Some [] ->
   fst (enforce command projectPath env)
   = Done {| action := act_block;
             message := Some (lit "No container configured");
             transformedCommand := None |})
  ∧ (∀ name, containerName config = Some name -> name ≠ [] ->
             isContainerRunning name env = false ->
             fst (enforce command projectPath env)
             = Done {| action := act_block;
                       message := Some (lit "Container not running");
                       transformedCommand := None |}).
Proof.
  intros Hc Hm Hi Ha. split.
  - intros Hn. unfold enforce.
    rewrite (fst_bind_done _ _ _ Hc), Hm, Hi, Ha.
    rewrite bool_decide_false by done.
    by destruct Hn as [-> | ->].
  - intros name Hn Hne Hrun. unfold enforce.
    rewrite (fst_bind_done _ _ _ Hc), Hm, Hi, Ha, Hn.
    rewrite bool_decide_false by done.
    destruct name as [|c name]; [done|].
    cbn [negb ifTruthy]. by rewrite Hrun.
Qed.

Lemma transform_mode_blocks_witness :
  let noName := sampleEnv (fileWith None (Some mode_transform) None None)
                          (Some (lit "dev")) in
  let emptyName := sampleEnv (fileWith (Some []) (Some mode_transform) None None)
                             None in
  let stopped := sampleEnv (fileWith (Some (lit "dev")) (Some mode_transform) None None)
                           (Some (lit "db" ++ [LF] ++ lit "cache" ++ [LF])) in
  let failing := sampleEnv (fileWith (Some (lit "dev")) (Some mode_transform) None None)
                           None in
  fst (enforce (lit "node app.js") None noName)
  = Done {| action := act_block; message := Some (lit "No container configured");
            transformedCommand := None |}
  ∧ fst (enforce (lit "node app.js") None emptyName)
    = Done {| action := act_block; message := Some (lit "No container configured");
              transformedCommand := None |}
  ∧ fst (enforce (lit "node app.js") None stopped)
    = Done {| action := act_block; message := Some (lit "Container not running");
              transformedCommand := None |}
  ∧ fst (enforce (lit "node app.js") None failing)
    = Done {| action := act_block; message := Some (lit "Container not running");
              transformedCommand := None |}.
Proof.
  intros noName emptyName stopped failing. split; [|split; [|split]].
  - eapply (transform_mode_blocks (lit "node app.js") None noName);
      [reflexivity .. | by left].
  - eapply (transform_mode_blocks (lit "node app.js") None emptyName);
      [reflexivity .. | by right].
  - eapply (transform_mode_blocks (lit "node app.js") None stopped);
      [reflexivity .. | done | reflexivity].
  - eapply (transform_mode_blocks (lit "node app.js") None failing);
      [reflexivity .. | done | reflexivity].
Defined.

(** C6, as stated, fails: under the mode [transform], with the empty string
    configured as container name and a status check that reports it as not
    running (the listing call fails), [enforce] blocks the intercepted command
    [node app.js] with the message [No container configured], not with
    [Container not running]. *)
Lemma transform_empty_name_counterexample :
  let env := sampleEnv (fileWith (Some []) (Some mode_transform) None None) None in
  let config := spread DEFAULT_CONFIG
                  {| containerName := Some [];
                     enforcement := Some mode_transform;
                     allowedHostCommands := None; interceptPatterns := None |} in
  fst (loadConfig None env) = Done config
  ∧ enforcement config = Some mode_transform
  ∧ shouldIntercept (lit "node app.js") config = true
  ∧ isAllowed (lit "node app.js") config = false
  ∧ containerName config = Some []
  ∧ isContainerRunning [] env = false
  ∧ fst (enforce (lit "node app.js") None env)
    = Done {| action := act_block; message := Some (lit "No container configured");
              transformedCommand := None |}
  ∧ fst (enforce (lit "node app.js") None env)
    ≠ Done {| action := act_block; message := Some (lit "Container not running");
              transformedCommand := None |}.
Proof. by repeat split. Qed.

(** C2, as amended.  For a command that matches an enabled intercept pattern
    and is not allow-listed, under the enforcement mode [transform] with a
    configured container name that the status check reports as running,
    [enforce] returns the action [transform], and the transformed command is
    exactly [docker exec], the container name and the original command,
    separated by single spaces. *)
Theorem transform_mode_transforms command projectPath env config name :
  fst (loadConfig projectPath env) = Done config ->
  enforcement config = Some mode_transform ->
  shouldIntercept command config = true ->
  isAllowed command config = false ->
  containerName config = Some name ->
  name ≠ [] ->
  isContainerRunning name env = true ->
  fst (enforce command projectPath env)
  = Done {| action := act_transform;
            message := None;
            transformedCommand :=
              Some (lit "docker exec " ++ name ++ lit " " ++ command) |}.
Proof.
  intros Hc Hm Hi Ha Hn Hne Hrun. unfold enforce.
  rewrite (fst_bind_done _ _ _ Hc), Hm, Hi, Ha, Hn.
  rewrite bool_decide_false by done.
  destruct name as [|c name]; [done|].
  cbn [negb ifTruthy]. by rewrite Hrun.
Qed.

Lemma transform_mode_transforms_witness :
  let env := sampleEnv (fileWith (Some (lit "dev")) (Some mode_transform) None None)
                       (Some (lit "db" ++ [LF] ++ lit "dev" ++ [LF])) in
  fst (enforce (lit "npm install express") None env)
  = Done {| action := act_transform;
            message := None;
            transformedCommand := Some (lit "docker exec dev npm install express") |}.
Proof.
  intros env.
  apply (transform_mode_transforms (lit "npm install express") None env
           (spread DEFAULT_CONFIG
              {| containerName := Some (lit "dev"); enforcement := Some mode_transform;
                 allowedHostCommands := None; interceptPatterns := None |})
           (lit "dev")); try reflexivity.
  done.
Defined.

(** C2, as stated, fails: under the mode [transform], with the container
    [dev] configured and running, the command [git status] matches no
    intercept pattern and [enforce] allows it instead of transforming it. *)
Lemma transform_every_command_counterexample :
  let env := sampleEnv (fileWith (Some (lit "dev")) (Some mode_transform) None None)
                       (Some (lit "dev" ++ [LF])) in
  let config := spread DEFAULT_CONFIG
                  {| containerName := Some (lit "dev");
                     enforcement := Some mode_transform;
                     allowedHostCommands := None; interceptPatterns := None |} in
  fst (loadConfig None env) = Done config
  ∧ enforcement config = Some mode_transform
  ∧ containerName config = Some (lit "dev")
  ∧ isContainerRunning (lit "dev") env = true
  ∧ fst (enforce (lit "git status") None env) = Done allowResult
  ∧ action allowResult ≠ act_transform
  ∧ transformedCommand allowResult ≠ Some (lit "docker exec dev git status").
Proof. by repeat split. Qed.

(** ** The allow-list *)

Lemma spacePrefixes_spec s entry :
  entry ∈ spacePrefixes s <-> ∃ rest, s = entry ++ SPACE ++ rest.
Proof.
  revert entry. induction s as [|c s IH]; intros entry; cbn [spacePrefixes].
  - split; [by intros ?%not_elem_of_nil|].
    intros [rest H]. by destruct entry.
  - rewrite elem_of_app, list_elem_of_fmap. split.
    + intros [Hhere | (p & -> & Hp)].
      * case_bool_decide as Hc; [|by apply not_elem_of_nil in Hhere].
        apply list_elem_of_singleton in Hhere. subst. by exists s.
      * apply IH in Hp as [rest ->]. by exists rest.
    + intros [rest H]. destruct entry as [|d entry]; cbn in H; simplify_eq.
      * left. rewrite bool_decide_true by done. by left.
      * right. exists entry. split; [done|]. apply IH. by exists rest.
Qed.

Lemma isAllowed_spec command config :
  isAllowed command config = true <->
  ∃ entry, entry ∈ default [] (allowedHostCommands config)
           ∧ (command = entry ∨ entry ∈ spacePrefixes command).
Proof.
  unfold isAllowed. rewrite anyAllowed_spec.
  by setoid_rewrite spacePrefixes_spec.
Qed.

(** C4, as amended.  With an allow-list that contains the entry
    [npm run lint], the allow-list check returns true for [npm run lint]
    and for every command made of [npm run lint], a space and further text;
    for [npm run lint:fix] it returns true only when the list also contains
    [npm run lint:fix], [npm run] or [npm], so with the allow-list
    [npm run lint] alone it returns false. *)
Theorem lint_entry_allows config allowed :
  allowedHostCommands config = Some allowed ->
  lit "npm run lint" ∈ allowed ->
  isAllowed (lit "npm run lint") config = true
  ∧ (∀ rest, isAllowed (lit "npm run lint" ++ SPACE ++ rest) config = true)
  ∧ (isAllowed (lit "npm run lint:fix") config = true <->
     lit "npm run lint:fix" ∈ allowed ∨ lit "npm run" ∈ allowed ∨ lit "npm" ∈ allowed)
  ∧ (allowed = [lit "npm run lint"] ->
     isAllowed (lit "npm run lint:fix") config = false).
Proof.
  intros Hl Hin.
  assert (isAllowed (lit "npm run lint:fix") config = true <->
          lit "npm run lint:fix" ∈ allowed ∨ lit "npm run" ∈ allowed
          ∨ lit "npm" ∈ allowed) as Hfix.
  { rewrite isAllowed_spec, Hl. cbn [default].
    change (spacePrefixes (lit "npm run lint:fix")) with [lit "npm"; lit "npm run"].
    split.
    - intros (entry & He & [->|Hp]); [by left|].
      apply elem_of_cons in Hp as [->|Hp]; [by right; right|].
      apply list_elem_of_singleton in Hp as ->. by right; left.
    - intros [H|[H|H]]; eexists; (split; [exact H|]).
      + by left.
      + right. by right; left.
      + right. by left. }
  repeat split.
  - apply isAllowed_spec. rewrite Hl. eexists. split; [exact Hin | by left].
  - intros rest. apply isAllowed_spec. rewrite Hl. eexists. split; [exact Hin|].
    right. apply spacePrefixes_spec. by exists rest.
  - apply Hfix.
  - apply Hfix.
  - intros ->. apply not_true_iff_false. rewrite Hfix.
    intros [H|[H|H]]; apply list_elem_of_singleton in H; discriminate H.
Qed.

Lemma lint_entry_allows_witness :
  let config := spread DEFAULT_CONFIG
                  {| containerName := None; enforcement := None;
                     allowedHostCommands := Some [lit "npm run lint"];
                     interceptPatterns := None |} in
  isAllowed (lit "npm run lint") config = true
  ∧ isAllowed (lit "npm run lint --fix") config = true
  ∧ isAllowed (lit "npm run lint:fix") config = false.
Proof.
  intros config.
  destruct (lint_entry_allows config [lit "npm run lint"]) as (H1 & H2 & _ & H4);
    [reflexivity | by left |].
  split; [exact H1|]. split; [exact (H2 (lit "--fix")) | exact (H4 eq_refl)].
Defined.

(** C4, as stated, fails: with the allow-list [npm run lint], the check
    returns false for [npm run lint:fix]. *)
Lemma lint_fix_counterexample :
  let config := {| containerName := None; enforcement := Some mode_block;
                   allowedHostCommands := Some [lit "npm run lint"];
                   interceptPatterns := None |} in
  lit "npm run lint" ∈ default [] (allowedHostCommands config)
  ∧ isAllowed (lit "npm run lint:fix") config = false.
Proof. split; [by left | reflexivity]. Qed.

(** ** The [check] sub-command *)

Lemma main_check_eq args env :
  head args = Some (lit "check") ->
  main args env = main_check (joinWith SPACE (tail args)) env.
Proof. intros H. unfold main. by rewrite H. Qed.

Lemma main_check_run command env config :
  command ≠ [] ->
  fst (loadConfig None env) = Done config ->
  run (main_check command env)
  = if shouldIntercept command config && negb (isAllowed command config)
    then (1%nat, snd (loadConfig None env) ++ [(stdout, lit "WOULD_BLOCK: " ++ command)])
    else (0%nat, snd (loadConfig None env) ++ [(stdout, lit "ALLOWED: " ++ command)]).
Proof.
  intros Hne Hc. unfold main_check.
  apply truthyString_true in Hne. rewrite Hne. cbn [negb].
  destruct (loadConfig None env) as [r warnings]. cbn [fst snd] in *. subst r.
  rewrite (bind_done _ _ tt []) by done.
  rewrite (bind_done _ _ config warnings) by done.
  by destruct (shouldIntercept command config && negb (isAllowed command config)).
Qed.

(** C7, as amended.  Given a non-empty command, the [check] sub-command
    prints [WOULD_BLOCK:] and the command on standard output and exits with
    code 1 exactly when the command matches an enabled intercept pattern and
    is not allow-listed, and otherwise prints [ALLOWED:] and the command and
    exits with code 0.  The outcome depends on the configuration through the
    intercept patterns and the allow-list only, not on the enforcement mode,
    the container name or the container status, so the sub-command reports
    [WOULD_BLOCK] also under the mode [disabled].  Under the built-in
    default configuration, [check "node app.js"] prints
    [WOULD_BLOCK: node app.js] and exits with code 1.  With no command, or
    an empty one, [check] prints its usage line on standard error and exits
    with code 1. *)
Theorem check_decision :
  (∀ args env command config,
     head args = Some (lit "check") ->
     joinWith SPACE (tail args) = command ->
     command ≠ [] ->
     fst (loadConfig None env) = Done config ->
     run (main args env)
     = if shouldIntercept command config && negb (isAllowed command config)
       then (1%nat,
             snd (loadConfig None env) ++ [(stdout, lit "WOULD_BLOCK: " ++ command)])
       else (0%nat,
             snd (loadConfig None env) ++ [(stdout, lit "ALLOWED: " ++ command)]))
  ∧ (∀ args env env' config config',
       head args = Some (lit "check") ->
       fst (loadConfig None env) = Done config ->
       fst (loadConfig None env') = Done config' ->
       snd (loadConfig None env) = snd (loadConfig None env') ->
       interceptPatterns config = interceptPatterns config' ->
       allowedHostCommands config = allowedHostCommands config' ->
       run (main args env) = run (main args env'))
  ∧ (∀ env,
       fst (loadConfig None env) = Done DEFAULT_CONFIG ->
       run (main [lit "check"; lit "node app.js"] env)
       = (1%nat,
          snd (loadConfig None env) ++ [(stdout, lit "WOULD_BLOCK: node app.js")]))
  ∧ (∀ args env,
       head args = Some (lit "check") ->
       joinWith SPACE (tail args) = [] ->
       run (main args env)
       = (1%nat, [(stderr, lit "Usage: enforce.ts check <command>")])).
Proof.
  split; [|split; [|split]].
  - intros args env command config Hh <- Hne Hc.
    rewrite (main_check_eq _ _ Hh). by apply main_check_run.
  - intros args env env' config config' Hh Hc Hc' Hw Hp Ha.
    rewrite !(main_check_eq _ _ Hh).
    destruct (joinWith SPACE (tail args)) as [|c command] eqn:Hcmd; [done|].
    rewrite (main_check_run _ env config), (main_check_run _ env' config') by done.
    unfold shouldIntercept, isAllowed. by rewrite Hp, Ha, Hw.
  - intros env Hc.
    rewrite (main_check_eq [lit "check"; lit "node app.js"] env eq_refl).
    change (joinWith SPACE (tail [lit "check"; lit "node app.js"]))
      with (lit "node app.js").
    by rewrite (main_check_run _ env DEFAULT_CONFIG).
  - intros args env Hh Hcmd. rewrite (main_check_eq _ _ Hh).
    unfold main_check. by rewrite Hcmd.
Qed.

Lemma check_decision_witness :
  let off := sampleEnv (fileWith None (Some mode_disabled) None None) None in
  let on := sampleEnv (fileWith (Some (lit "dev")) (Some mode_transform) None None)
                      (Some (lit "dev" ++ [LF])) in
  run (main [lit "check"; lit "npm"; lit "install"] off)
  = (1%nat, [(stdout, lit "WOULD_BLOCK: npm install")])
  ∧ run (main [lit "check"; lit "git status"] off)
    = (0%nat, [(stdout, lit "ALLOWED: git status")])
  ∧ run (main [lit "check"; lit "npm"; lit "install"] off)
    = run (main [lit "check"; lit "npm"; lit "install"] on)
  ∧ run (main [lit "check"; lit "node app.js"] (sampleEnv Missing None))
    = (1%nat, [(stdout, lit "WOULD_BLOCK: node app.js")])
  ∧ run (main [lit "check"] (sampleEnv Unreadable None))
    = (1%nat, [(stderr, lit "Usage: enforce.ts check <command>")])
  ∧ run (main [lit "check"; []] on)
    = (1%nat, [(stderr, lit "Usage: enforce.ts check <command>")]).
Proof.
  intros off on.
  destruct check_decision as (Hdec & Hind & Hex & Husage).
  split_and!.
  - apply (Hdec [lit "check"; lit "npm"; lit "install"] off (lit "npm install")
             (spread DEFAULT_CONFIG
                {| containerName := None; enforcement := Some mode_disabled;
                   allowedHostCommands := None; interceptPatterns := None |}));
      done.
  - apply (Hdec [lit "check"; lit "git status"] off (lit "git status")
             (spread DEFAULT_CONFIG
                {| containerName := None; enforcement := Some mode_disabled;
                   allowedHostCommands := None; interceptPatterns := None |}));
      done.
  - eapply (Hind [lit "check"; lit "npm"; lit "install"] off on); reflexivity.
  - apply (Hex (sampleEnv Missing None)). reflexivity.
  - apply (Husage [lit "check"] (sampleEnv Unreadable None)); reflexivity.
  - apply (Husage [lit "check"; []] on); reflexivity.
Defined.

(** C7, as stated, fails: [check] without a command prints a usage line on
    standard error and exits with code 1, although the empty command matches
    no intercept pattern; no [ALLOWED:] line is printed. *)
Lemma check_without_command_counterexample :
  let env := sampleEnv Missing None in
  let command := joinWith SPACE (tail [lit "check"]) in
  fst (loadConfig None env) = Done DEFAULT_CONFIG
  ∧ shouldIntercept command DEFAULT_CONFIG && negb (isAllowed command DEFAULT_CONFIG)
    = false
  ∧ run (main [lit "check"] env)
    = (1%nat, [(stderr, lit "Usage: enforce.ts check <command>")])
  ∧ run (main [lit "check"] env) ≠ (0%nat, [(stdout, lit "ALLOWED: " ++ command)]).
Proof. by repeat split. Qed.

(** ** The container status check *)

(** C8. When the call that lists the running containers fails, the status
    check answers false for every container name; it answers true exactly
    when the call succeeded and the name is one of the lines of its
    output. *)
Theorem container_status_check containerName :
  (∀ env, dockerPs env = None -> isContainerRunning containerName env = false)
  ∧ (∀ env, isContainerRunning containerName env = true <->
            ∃ output, dockerPs env = Some output ∧ containerName ∈ split LF output).
Proof.
  split.
  - intros env H. unfold isContainerRunning. by rewrite H.
  - intros env. unfold isContainerRunning, includes.
    destruct (dockerPs env) as [output|].
    + rewrite bool_decide_eq_true. split; [by eauto|].
      by intros (? & [= <-] & ?).
    + split; [done | by intros (? & ? & _)].
Qed.

Lemma container_status_check_witness :
  let listing := lit "db" ++ [LF] ++ lit "dev" ++ [LF] in
  isContainerRunning (lit "dev") (sampleEnv Missing None) = false
  ∧ isContainerRunning (lit "dev") (sampleEnv Missing (Some listing)) = true
  ∧ isContainerRunning (lit "de") (sampleEnv Missing (Some listing)) = false.
Proof.
  intros listing.
  destruct (container_status_check (lit "dev")) as [Hfail Hiff].
  split; [|split].
  - apply (Hfail (sampleEnv Missing None)). reflexivity.
  - apply (Hiff (sampleEnv Missing (Some listing))).
    exists listing. split; [reflexivity|]. right. by left.
  - reflexivity.
Defined.

(** ** Merging the configuration file over the defaults *)

Lemma loadConfig_parsed projectPath env fileConfig :
  fileAt env (configPathOf projectPath env) = Parsed fileConfig ->
  loadConfig projectPath env = (Done (spread DEFAULT_CONFIG fileConfig), []).
Proof. intros H. unfold loadConfig. by rewrite H. Qed.

(** C9. The merge is shallow: a top-level field that the configuration file
    has replaces the default as a whole, and a field that it lacks keeps the
    default.  So when the file has an [interceptPatterns] object that omits
    a tool, a command that matches the pattern of that tool and of no other
    tool is not intercepted, although the built-in default configuration
    intercepts it. *)
Theorem shallow_merge :
  (∀ projectPath env fileConfig,
     fileAt env (configPathOf projectPath env) = Parsed fileConfig ->
     ∃ config,
       fst (loadConfig projectPath env) = Done config
       ∧ containerName config = containerName fileConfig
       ∧ enforcement config
         = match enforcement fileConfig with
           | Some mode => Some mode
           | None => enforcement DEFAULT_CONFIG
           end
       ∧ allowedHostCommands config
         = match allowedHostCommands fileConfig with
           | Some allowed => Some allowed
           | None => allowedHostCommands DEFAULT_CONFIG
           end
       ∧ interceptPatterns config
         = match interceptPatterns fileConfig with
           | Some entries => Some entries
           | None => interceptPatterns DEFAULT_CONFIG
           end)
  ∧ (∀ projectPath env fileConfig entries tool command,
       fileAt env (configPathOf projectPath env) = Parsed fileConfig ->
       interceptPatterns fileConfig = Some entries ->
       tool ∉ entries.*1 ->
       test (INTERCEPT_PATTERNS tool) command = true ->
       (∀ other, other ≠ tool -> test (INTERCEPT_PATTERNS other) command = false) ->
       ∃ config,
         fst (loadConfig projectPath env) = Done config
         ∧ shouldIntercept command config = false
         ∧ shouldIntercept command DEFAULT_CONFIG = true).
Proof.
  split.
  - intros projectPath env fileConfig Hfile.
    exists (spread DEFAULT_CONFIG fileConfig).
    rewrite (loadConfig_parsed _ _ _ Hfile).
    by destruct fileConfig as [[?|] [?|] [?|] [?|]].
  - intros projectPath env fileConfig entries tool command Hfile Hp Hout Hhit Honly.
    exists (spread DEFAULT_CONFIG fileConfig).
    rewrite (loadConfig_parsed _ _ _ Hfile).
    split; [done|]. split.
    + unfold shouldIntercept, spread. cbn [interceptPatterns spreadField].
      rewrite Hp. apply not_true_iff_false.
      intros (t & Hin & Ht)%anyEntry_spec.
      destruct (decide (t = tool)) as [->|Hne].
      * apply Hout. apply list_elem_of_fmap. by exists (tool, true).
      * rewrite (Honly t Hne) in Ht. done.
    + apply anyEntry_spec. exists tool. split; [|done].
      apply list_elem_of_In. destruct tool; cbn; tauto.
Qed.

Lemma shallow_merge_witness :
  let file := fileWith None None None (Some [(npm, true); (yarn, false)]) in
  let env := sampleEnv file None in
  (∃ config, fst (loadConfig None env) = Done config
             ∧ shouldIntercept (lit "node app.js") config = false
             ∧ shouldIntercept (lit "node app.js") DEFAULT_CONFIG = true)
  ∧ (∃ config, fst (loadConfig None env) = Done config
               ∧ enforcement config = Some mode_block
               ∧ interceptPatterns config = Some [(npm, true); (yarn, false)]).
Proof.
  intros file env.
  destruct shallow_merge as [Hmerge Homit]. split.
  - apply (Homit None env
             {| containerName := None; enforcement := None;
                allowedHostCommands := None;
                interceptPatterns := Some [(npm, true); (yarn, false)] |}
             [(npm, true); (yarn, false)] node (lit "node app.js"));
      [reflexivity | reflexivity | | reflexivity |].
    + intros [H|[H|H%not_elem_of_nil]%elem_of_cons]%elem_of_cons;
        [discriminate H | discriminate H | exact H].
    + intros other Hne. destruct other; first [reflexivity | by destruct Hne].
  - destruct (Hmerge None env
                {| containerName := None; enforcement := None;
                   allowedHostCommands := None;
                   interceptPatterns := Some [(npm, true); (yarn, false)] |} eq_refl)
      as (config & Hc & _ & Hm & _ & Hp).
    exists config. by repeat split.
Defined.

(** ** An empty container name *)











Lemma main_validate_eq args env :
  head args = Some (lit "validate") -> main args env = main_validate env.
Proof. intros H. unfold main. by rewrite H. Qed.

Lemma main_transform_eq args env :
  head args = Some (lit "transform") ->
  main args env = main_transform (joinWith SPACE (tail args)) env.
Proof. intros H. unfold main. by rewrite H. Qed.




(** * Further properties *)

(** ** Further properties of the configuration loader *)

Lemma loadConfig_cases projectPath env :
  (∃ fileConfig, fileAt env (configPathOf projectPath env) = Parsed fileConfig
                 ∧ loadConfig projectPath env = (Done (spread DEFAULT_CONFIG fileConfig), []))
  ∨ (fileAt env (configPathOf projectPath env) = Missing
     ∧ loadConfig projectPath env = (Done DEFAULT_CONFIG, []))
  ∨ (fileAt env (configPathOf projectPath env) = Unreadable
     ∧ loadConfig projectPath env
       = (Done DEFAULT_CONFIG,
          [(stderr, colors.yellow ++ lit "Warning: Could not parse "
                    ++ configPathOf projectPath env ++ colors.reset)])).
Proof.
  unfold loadConfig. destruct (fileAt env _) as [| |fileConfig]; eauto.
Qed.

Lemma loadConfig_has_mode projectPath env config :
  fst (loadConfig projectPath env) = Done config -> is_Some (enforcement config).
Proof.
  intros Hc.
  destruct (loadConfig_cases projectPath env)
    as [(fileConfig & _ & E) | [[_ E] | [_ E]]];
    rewrite E in Hc; cbn [fst] in Hc; simplify_eq; [|by eexists ..].
  destruct fileConfig as [name [mode|] allowed patterns]; cbn; by eexists.
Qed.

(** X1. Whatever the state of the configuration file, the configuration
    that [loadConfig] returns has an enforcement mode, an allow-list and an
    intercept table; only the container name can be absent, and when it is
    present it is the one of a parsed file. *)
Theorem loaded_config_is_complete projectPath env config :
  fst (loadConfig projectPath env) = Done config ->
  is_Some (enforcement config)
  ∧ is_Some (allowedHostCommands config)
  ∧ is_Some (interceptPatterns config)
  ∧ (containerName config = None
     ∨ ∃ fileConfig, fileAt env (configPathOf projectPath env) = Parsed fileConfig
                     ∧ containerName config = containerName fileConfig).
Proof.
  intros Hc.
  destruct (loadConfig_cases projectPath env)
    as [(fileConfig & Hf & E) | [[Hf E] | [Hf E]]];
    rewrite E in Hc; cbn [fst] in Hc; simplify_eq.
  - split; [|split; [|split]].
    + destruct fileConfig as [name [mode|] allowed patterns]; cbn; by eexists.
    + destruct fileConfig as [name mode [allowed|] patterns]; cbn; by eexists.
    + destruct fileConfig as [name mode allowed [patterns|]]; cbn; by eexists.
    + right. exists fileConfig. split; [done|]. by destruct fileConfig as [[?|] ? ? ?].
  - cbn. repeat split; try by eexists. by left.
  - cbn. repeat split; try by eexists. by left.
Qed.

Lemma loaded_config_is_complete_witness :
  let env := sampleEnv (fileWith (Some (lit "dev")) None None None) None in
  let config := spread DEFAULT_CONFIG
                  {| containerName := Some (lit "dev"); enforcement := None;
                     allowedHostCommands := None; interceptPatterns := None |} in
  fst (loadConfig None env) = Done config
  ∧ is_Some (enforcement config)
  ∧ is_Some (allowedHostCommands config)
  ∧ is_Some (interceptPatterns config).
Proof.
  intros env config.
  destruct (loaded_config_is_complete None env config) as (H1 & H2 & H3 & _);
    [reflexivity|].
  by repeat split.
Defined.

Lemma enforce_done command projectPath env :
  ∃ result, fst (enforce command projectPath env) = Done result.
Proof.
  unfold enforce.
  destruct (loadConfig_done projectPath env) as (config & out & E).
  rewrite (bind_done _ _ _ _ E). cbn [fst].
  case_bool_decide; [by eauto|].
  destruct (shouldIntercept command config); [|by eauto].
  destruct (isAllowed command config); [by eauto|]. cbn [negb].
  destruct (enforcement config) as [[]|]; try by eauto.
  - rewrite (fst_bind_done _ _ _ (showBlockMessage_done _ _)). by eauto.
  - rewrite (fst_bind_done _ _ _ (showWarning_done _ _)). by eauto.
  - destruct (containerName config) as [[|c name]|]; cbn [ifTruthy]; try by eauto.
    destruct (isContainerRunning (c :: name) env); by eauto.
Qed.

(** X2. The decision table of [enforce].  The action is [allow] exactly when
    the mode is [disabled], or is none of the four modes, or the command is
    not subject to the policy (it matches no enabled pattern, or the
    allow-list exempts it); [warn] exactly
    when the mode is [warn] and the command is subject to the policy;
    [transform] exactly when the mode is [transform], the command is subject
    to the policy and a non-empty container name is configured and running;
    [block] exactly when the command is subject to the policy and the mode
    is [block], or [transform] without a ready container. *)
Theorem enforce_decision_table command projectPath env config result :
  fst (loadConfig projectPath env) = Done config ->
  fst (enforce command projectPath env) = Done result ->
  (action result = act_allow <->
     enforcement config = Some mode_disabled
     ∨ enforcement config = Some mode_unrecognized
     ∨ subjectToPolicy command config = false)
  ∧ (action result = act_warn <->
       enforcement config = Some mode_warn ∧ subjectToPolicy command config = true)
  ∧ (action result = act_transform <->
       enforcement config = Some mode_transform ∧ subjectToPolicy command config = true
       ∧ containerReady config env = true)
  ∧ (action result = act_block <->
       subjectToPolicy command config = true
       ∧ (enforcement config = Some mode_block
          ∨ (enforcement config = Some mode_transform
             ∧ containerReady config env = false))).
Proof.
  intros Hc Hr.
  destruct (loadConfig_has_mode _ _ _ Hc) as [mode Hm].
  revert Hr. unfold enforce, subjectToPolicy, containerReady.
  rewrite (fst_bind_done _ _ _ Hc), Hm.
  destruct mode, (shouldIntercept command config), (isAllowed command config);
    cbn [negb andb bool_decide decide_rel];
    rewrite ?bool_decide_true, ?bool_decide_false by done;
    cbn [negb];
    rewrite ?(fst_bind_done _ _ _ (showBlockMessage_done _ _)),
            ?(fst_bind_done _ _ _ (showWarning_done _ _));
    try (intros [= <-]; cbn; intuition congruence).
  all: destruct (containerName config) as [[|c name]|]; cbn [ifTruthy truthyString andb];
    try (intros [= <-]; cbn; intuition congruence).
  all: destruct (isContainerRunning (c :: name) env); cbn [negb];
    intros [= <-]; cbn; intuition congruence.
Qed.

Lemma enforce_decision_table_witness :
  let env := sampleEnv (fileWith (Some (lit "dev")) (Some mode_transform) None None)
                       (Some (lit "dev" ++ [LF])) in
  let config := spread DEFAULT_CONFIG
                  {| containerName := Some (lit "dev");
                     enforcement := Some mode_transform;
                     allowedHostCommands := None; interceptPatterns := None |} in
  let result := {| action := act_transform; message := None;
                   transformedCommand := Some (lit "docker exec dev npm install") |} in
  fst (enforce (lit "npm install") None env) = Done result
  ∧ subjectToPolicy (lit "npm install") config = true
  ∧ containerReady config env = true
  ∧ ¬ (enforcement config = Some mode_disabled
       ∨ enforcement config = Some mode_unrecognized
       ∨ subjectToPolicy (lit "npm install") config = false)
  ∧ ∃ allowed,
      fst (enforce (lit "npm install") None
             (sampleEnv (fileWith None (Some mode_unrecognized) None None) None))
      = Done allowed
      ∧ action allowed = act_allow.
Proof.
  intros env config result.
  destruct (enforce_decision_table (lit "npm install") None env config result)
    as (Hallow & _ & Htransform & _); [reflexivity | reflexivity |].
  split; [reflexivity|].
  destruct Htransform as [Htransform _].
  destruct (Htransform eq_refl) as (_ & Hs & Hr).
  split; [exact Hs|]. split; [exact Hr|].
  split; [intros H; apply Hallow in H; discriminate H|].
  exists allowResult. split; [reflexivity|].
  destruct (enforce_decision_table (lit "npm install") None
              (sampleEnv (fileWith None (Some mode_unrecognized) None None) None)
              (spread DEFAULT_CONFIG
                 {| containerName := None; enforcement := Some mode_unrecognized;
                    allowedHostCommands := None; interceptPatterns := None |})
              allowResult)
    as ([_ Hother] & _); [reflexivity | reflexivity |].
  apply Hother. by right; left.
Defined.

(** ** Output channels and exit codes *)

Lemma snd_bind_done {A B} (m : Proc A) (f : A -> Proc B) a :
  fst m = Done a -> snd (m ≫= f) = snd m ++ snd (f a).
Proof. destruct m as [r out]. cbn [fst snd]. intros ->. by erewrite bind_done. Qed.

Lemma loadConfig_onStderr projectPath env : onStderr (snd (loadConfig projectPath env)).
Proof.
  unfold loadConfig. destruct (fileAt env _); cbn; by repeat constructor.
Qed.

Lemma showBlockMessage_onStderr command name :
  onStderr (snd (showBlockMessage command name)).
Proof. destruct name as [[|c s]|]; cbn; by repeat constructor. Qed.

Lemma showWarning_onStderr command name :
  onStderr (snd (showWarning command name)).
Proof. destruct name as [[|c s]|]; cbn; by repeat constructor. Qed.

(** X3. [enforce] always returns a result, never stops the process itself,
    and writes to standard error only. *)
Theorem enforce_prints_to_stderr command projectPath env :
  (∃ result, fst (enforce command projectPath env) = Done result)
  ∧ onStderr (snd (enforce command projectPath env)).
Proof.
  split; [apply enforce_done|].
  unfold enforce.
  destruct (loadConfig_done projectPath env) as (config & out & E).
  pose proof (loadConfig_onStderr projectPath env) as Hout.
  rewrite E in Hout. cbn [snd] in Hout.
  rewrite (bind_done _ _ _ _ E). cbn [snd].
  apply Forall_app. split; [done|].
  case_bool_decide; [by constructor|].
  destruct (shouldIntercept command config); [|by constructor].
  destruct (isAllowed command config); [by constructor|]. cbn [negb].
  destruct (enforcement config) as [[]|]; try by constructor.
  - rewrite (snd_bind_done _ _ _ (showBlockMessage_done _ _)).
    apply Forall_app. split; [apply showBlockMessage_onStderr | by constructor].
  - rewrite (snd_bind_done _ _ _ (showWarning_done _ _)).
    apply Forall_app. split; [apply showWarning_onStderr | by constructor].
  - destruct (containerName config) as [[|c name]|]; cbn [ifTruthy];
      try by (cbn; repeat constructor).
    destruct (isContainerRunning (c :: name) env); cbn; by repeat constructor.
Qed.

(** X4. Whatever the arguments and the environment, the process exits with
    code 0 or 1. *)
Theorem main_exit_code args env :
  fst (run (main args env)) = 0%nat ∨ fst (run (main args env)) = 1%nat.
Proof.
  unfold main. repeat case_bool_decide.
  - unfold main_check. destruct (truthyString _); cbn [negb]; [|by right].
    rewrite (bind_done _ _ tt []) by done.
    destruct (loadConfig_done None env) as (config & out & E).
    rewrite (bind_done _ _ _ _ E).
    destruct (shouldIntercept _ _ && negb (isAllowed _ _)); [by right | by left].
  - unfold main_validate.
    destruct (loadConfig_done None env) as (config & out & E).
    rewrite (bind_done _ _ _ _ E).
    destruct (containerName config) as [[|c name]|]; cbn [ifTruthy]; try by right.
    destruct (isContainerRunning _ _); [by left | by right].
  - unfold main_transform. destruct (truthyString _); cbn [negb]; [|by right].
    rewrite (bind_done _ _ tt []) by done.
    destruct (loadConfig_done None env) as (config & out & E).
    rewrite (bind_done _ _ _ _ E).
    destruct (containerName config) as [[|c name]|]; cbn [ifTruthy]; by eauto.
  - unfold main_enforce. destruct (truthyString _); cbn [negb]; [|by right].
    rewrite (bind_done _ _ tt []) by done.
    destruct (enforce_done (enforceCmd (head args) (joinWith SPACE (tail args))) None env)
      as [result Hr].
    destruct (enforce _ _ _) as [r out]. cbn [fst] in Hr. subst r.
    rewrite (bind_done _ _ result out) by done.
    case_bool_decide; [by right | by left].
Qed.

(** ** The enforce path of the command line *)

Lemma main_enforce_eq args env :
  head args ≠ Some (lit "check") ->
  head args ≠ Some (lit "validate") ->
  head args ≠ Some (lit "transform") ->
  main args env = main_enforce (head args) (joinWith SPACE (tail args)) env.
Proof. intros H1 H2 H3. unfold main. by rewrite !bool_decide_false. Qed.

Lemma main_enforce_run action_arg command env result :
  enforceCmd action_arg command ≠ [] ->
  fst (enforce (enforceCmd action_arg command) None env) = Done result ->
  run (main_enforce action_arg command env)
  = (if bool_decide (action result = act_block) then 1%nat else 0%nat,
     snd (enforce (enforceCmd action_arg command) None env)).
Proof.
  intros Hne Hr. unfold main_enforce.
  apply truthyString_true in Hne. rewrite Hne. cbn [negb].
  rewrite (bind_done _ _ tt []) by done.
  destruct (enforce _ None env) as [r out]. cbn [fst snd] in *. subst r.
  rewrite (bind_done _ _ result out) by done.
  case_bool_decide; cbn; by rewrite app_nil_r.
Qed.

(** X5. On the enforce path of the command line (no recognised
    sub-command, or [enforce]) with a non-empty command, the process prints
    what [enforce] prints and nothing else, and exits with code 1 when the
    action is [block] and with code 0 otherwise. *)
Theorem enforce_cli args env cmd result :
  head args ≠ Some (lit "check") ->
  head args ≠ Some (lit "validate") ->
  head args ≠ Some (lit "transform") ->
  enforceCmd (head args) (joinWith SPACE (tail args)) = cmd ->
  cmd ≠ [] ->
  fst (enforce cmd None env) = Done result ->
  run (main args env)
  = (if bool_decide (action result = act_block) then 1%nat else 0%nat,
     snd (enforce cmd None env)).
Proof.
  intros H1 H2 H3 <- Hne Hr. rewrite main_enforce_eq by done.
  by apply main_enforce_run.
Qed.

Lemma enforce_cli_witness :
  let env := sampleEnv (fileWith None (Some mode_warn) None None) None in
  fst (run (main [lit "yarn"; lit "add"; lit "left-pad"] env)) = 0%nat
  ∧ fst (run (main [lit "enforce"; lit "yarn add left-pad"]
                   (sampleEnv Missing None))) = 1%nat.
Proof.
  intros env. split.
  - rewrite (enforce_cli [lit "yarn"; lit "add"; lit "left-pad"] env
               (lit "yarn add left-pad")
               {| action := act_warn; message := None; transformedCommand := None |});
      [reflexivity | done | done | done | reflexivity | done | reflexivity].
  - rewrite (enforce_cli [lit "enforce"; lit "yarn add left-pad"]
               (sampleEnv Missing None) (lit "yarn add left-pad")
               {| action := act_block;
                  message := Some (lit "Docker-first policy violation");
                  transformedCommand := None |});
      [reflexivity | done | done | done | reflexivity | done | reflexivity].
Defined.

(** X6. Under the mode [warn], a command that matches an enabled pattern
    and is not allow-listed gets the action [warn]; on the command line the
    process exits with code 0 and the last line it prints is
    [Proceeding anyway...] on standard error. *)
Theorem warn_mode_warns command env config args :
  fst (loadConfig None env) = Done config ->
  enforcement config = Some mode_warn ->
  shouldIntercept command config = true ->
  isAllowed command config = false ->
  head args ≠ Some (lit "check") ->
  head args ≠ Some (lit "validate") ->
  head args ≠ Some (lit "transform") ->
  enforceCmd (head args) (joinWith SPACE (tail args)) = command ->
  fst (enforce command None env)
  = Done {| action := act_warn; message := None; transformedCommand := None |}
  ∧ fst (run (main args env)) = 0%nat
  ∧ last (snd (run (main args env))) = Some (stderr, lit "Proceeding anyway...").
Proof.
  intros Hc Hm Hi Ha H1 H2 H3 Hcmd.
  assert (enforce command None env
          = (Done {| action := act_warn; message := None; transformedCommand := None |},
             snd (loadConfig None env)
             ++ snd (showWarning command (containerName config)))) as Henf.
  { unfold enforce.
    destruct (loadConfig None env) as [r out]. cbn [fst snd] in *. subst r.
    rewrite (bind_done _ _ config out) by done.
    rewrite Hm, Hi, Ha. rewrite bool_decide_false by done. cbn [negb fst snd].
    rewrite (fst_bind_done _ _ _ (showWarning_done _ _)).
    rewrite (snd_bind_done _ _ _ (showWarning_done _ _)).
    cbn. by rewrite app_nil_r. }
  split; [by rewrite Henf|].
  subst command. rewrite main_enforce_eq by done.
  rewrite (main_enforce_run _ _ _
             {| action := act_warn; message := None; transformedCommand := None |}).
  2:{ apply truthyString_true. by apply (shouldIntercept_truthy _ config). }
  2:{ by rewrite Henf. }
  cbn [fst snd]. split; [done|].
  rewrite Henf. cbn [snd].
  destruct (containerName config) as [[|c name]|]; cbn; by rewrite last_app.
Qed.

Lemma warn_mode_warns_witness :
  let env := sampleEnv (fileWith (Some (lit "dev")) (Some mode_warn) None None) None in
  fst (enforce (lit "bun install") None env)
  = Done {| action := act_warn; message := None; transformedCommand := None |}
  ∧ fst (run (main [lit "bun"; lit "install"] env)) = 0%nat
  ∧ last (snd (run (main [lit "bun"; lit "install"] env)))
    = Some (stderr, lit "Proceeding anyway...").
Proof.
  intros env.
  apply (warn_mode_warns (lit "bun install") env
           (spread DEFAULT_CONFIG
              {| containerName := Some (lit "dev"); enforcement := Some mode_warn;
                 allowedHostCommands := None; interceptPatterns := None |})
           [lit "bun"; lit "install"]); done.
Defined.

(** ** The [transform] and [validate] sub-commands *)

(** X7. With a non-empty command and a non-empty container name configured,
    the [transform] sub-command prints the line made of [docker exec], the
    container name and the command on standard output and exits with code 0,
    whatever the enforcement mode, the allow-list, the intercept table and
    the state of the container. *)
Theorem transform_subcommand args env command config name :
  head args = Some (lit "transform") ->
  joinWith SPACE (tail args) = command ->
  command ≠ [] ->
  fst (loadConfig None env) = Done config ->
  containerName config = Some name ->
  name ≠ [] ->
  run (main args env)
  = (0%nat,
     snd (loadConfig None env)
     ++ [(stdout, lit "docker exec " ++ name ++ lit " " ++ command)]).
Proof.
  intros Hh <- Hne Hc Hn Hname. rewrite (main_transform_eq _ _ Hh).
  unfold main_transform. apply truthyString_true in Hne. rewrite Hne. cbn [negb].
  destruct (loadConfig None env) as [r warnings]. cbn [fst snd] in *. subst r.
  rewrite (bind_done _ _ tt []) by done.
  rewrite (bind_done _ _ config warnings) by done. rewrite Hn.
  destruct name as [|c name]; [done|]. cbn. by rewrite ?app_nil_r.
Qed.

Lemma transform_subcommand_witness :
  let env := sampleEnv (fileWith (Some (lit "dev")) (Some mode_disabled) None None)
                       None in
  run (main [lit "transform"; lit "git"; lit "status"] env)
  = (0%nat, [(stdout, lit "docker exec dev git status")]).
Proof.
  intros env.
  apply (transform_subcommand [lit "transform"; lit "git"; lit "status"] env
           (lit "git status")
           (spread DEFAULT_CONFIG
              {| containerName := Some (lit "dev"); enforcement := Some mode_disabled;
                 allowedHostCommands := None; interceptPatterns := None |})
           (lit "dev")); done.
Defined.



(** X9. Under the mode [transform], [validate] succeeds exactly when
    [enforce] rewrites a command that is subject to the policy. *)
Theorem validate_predicts_transform command env config result :
  fst (loadConfig None env) = Done config ->
  enforcement config = Some mode_transform ->
  subjectToPolicy command config = true ->
  fst (enforce command None env) = Done result ->
  (fst (run (main [lit "validate"] env)) = 0%nat <-> action result = act_transform).
Proof.
  intros Hc Hm Hs Hr.
  rewrite (main_validate_eq [lit "validate"] env eq_refl).
  revert Hr. unfold enforce, main_validate.
  apply andb_true_iff in Hs as [Hi Ha]. apply negb_true_iff in Ha.
  destruct (loadConfig None env) as [r warnings]. cbn [fst snd] in *. subst r.
  rewrite !(bind_done _ _ config warnings) by done.
  rewrite Hm, Hi, Ha. rewrite bool_decide_false by done. cbn [negb fst].
  destruct (containerName config) as [[|c name]|]; cbn [ifTruthy];
    try (intros [= <-]; cbn; split; intros; discriminate).
  destruct (isContainerRunning (c :: name) env); cbn; intros [= <-]; cbn;
    split; intros; done.
Qed.

Lemma validate_predicts_transform_witness :
  let env := sampleEnv (fileWith (Some (lit "dev")) (Some mode_transform) None None)
                       (Some (lit "dev" ++ [LF])) in
  fst (run (main [lit "validate"] env)) = 0%nat.
Proof.
  intros env.
  apply (validate_predicts_transform (lit "tsx main.ts") env
           (spread DEFAULT_CONFIG
              {| containerName := Some (lit "dev"); enforcement := Some mode_transform;
                 allowedHostCommands := None; interceptPatterns := None |})
           {| action := act_transform; message := None;
              transformedCommand := Some (lit "docker exec dev tsx main.ts") |});
    reflexivity.
Defined.

(** X10. Whenever [enforce] returns a transformed command, the [transform]
    sub-command prints that same text for the same command and exits with
    code 0. *)
Theorem transform_subcommand_agrees command env result transformed :
  fst (enforce command None env) = Done result ->
  transformedCommand result = Some transformed ->
  run (main [lit "transform"; command] env)
  = (0%nat, snd (loadConfig None env) ++ [(stdout, transformed)]).
Proof.
  intros Hr Ht.
  rewrite (main_transform_eq [lit "transform"; command] env eq_refl).
  change (joinWith SPACE (tail [lit "transform"; command])) with command.
  destruct (loadConfig_done None env) as (config & warnings & E).
  assert (shouldIntercept command config = true
          ∧ ∃ c name, containerName config = Some (c :: name)
                      ∧ transformed = lit "docker exec " ++ (c :: name) ++ lit " " ++ command)
    as (Hi & c & name & Hn & ->).
  { revert Hr. unfold enforce. rewrite (bind_done _ _ _ _ E). cbn [fst].
    case_bool_decide; [intros [= <-]; discriminate Ht|].
    destruct (shouldIntercept command config); [|intros [= <-]; discriminate Ht].
    destruct (isAllowed command config); [intros [= <-]; discriminate Ht|]. cbn [negb].
    destruct (enforcement config) as [[]|];
      rewrite ?(fst_bind_done _ _ _ (showBlockMessage_done _ _)),
              ?(fst_bind_done _ _ _ (showWarning_done _ _));
      try (intros [= <-]; discriminate Ht).
    destruct (containerName config) as [[|c name]|]; cbn [ifTruthy];
      try (intros [= <-]; discriminate Ht).
    destruct (isContainerRunning (c :: name) env); cbn [negb]; intros [= <-];
      [|discriminate Ht].
    cbn in Ht. simplify_eq. by eauto. }
  unfold main_transform. rewrite E.
  rewrite (shouldIntercept_truthy _ _ Hi). cbn [negb].
  rewrite (bind_done _ _ tt []) by done.
  rewrite (bind_done _ _ config warnings) by done. rewrite Hn.
  cbn. by rewrite ?app_nil_r.
Qed.

Lemma transform_subcommand_agrees_witness :
  let env := sampleEnv (fileWith (Some (lit "dev")) (Some mode_transform) None None)
                       (Some (lit "dev" ++ [LF])) in
  run (main [lit "transform"; lit "tsx main.ts"] env)
  = (0%nat, [(stdout, lit "docker exec dev tsx main.ts")]).
Proof.
  intros env.
  apply (transform_subcommand_agrees (lit "tsx main.ts") env
           {| action := act_transform; message := None;
              transformedCommand := Some (lit "docker exec dev tsx main.ts") |}
           (lit "docker exec dev tsx main.ts")); reflexivity.
Defined.

(** ** More on the allow-list *)

(** X11. An allowed command stays allowed when a space and further
    arguments are appended to it. *)
Theorem allowed_command_takes_arguments command arguments config :
  isAllowed command config = true ->
  isAllowed (command ++ SPACE ++ arguments) config = true.
Proof.
  unfold isAllowed. rewrite !anyAllowed_spec.
  intros (entry & Hin & [->|[rest ->]]); exists entry; (split; [done|]); right.
  - by exists arguments.
  - exists (rest ++ SPACE ++ arguments). by rewrite <- !app_assoc.
Qed.

Lemma allowed_command_takes_arguments_witness :
  let config := {| containerName := None; enforcement := None;
                   allowedHostCommands := Some [lit "npm run format"];
                   interceptPatterns := None |} in
  isAllowed (lit "npm run format -- --check src") config = true.
Proof.
  intros config.
  apply (allowed_command_takes_arguments (lit "npm run format") (lit "-- --check src")
           config).
  reflexivity.
Defined.

(** X12. Adding entries to the allow-list never takes an exemption away. *)
Theorem allow_list_grows command config config' allowed allowed' :
  allowedHostCommands config = Some allowed ->
  allowedHostCommands config' = Some allowed' ->
  allowed ⊆ allowed' ->
  isAllowed command config = true ->
  isAllowed command config' = true.
Proof.
  unfold isAllowed. intros -> -> Hsub. cbn [default]. rewrite !anyAllowed_spec.
  intros (entry & Hin & He). exists entry. split; [by apply Hsub | done].
Qed.

Lemma allow_list_grows_witness :
  let config' := {| containerName := None; enforcement := None;
                    allowedHostCommands := Some [lit "npm test"; lit "npm run lint"];
                    interceptPatterns := None |} in
  isAllowed (lit "npm run lint --fix") config' = true.
Proof.
  intros config'.
  apply (allow_list_grows (lit "npm run lint --fix")
           {| containerName := None; enforcement := None;
              allowedHostCommands := Some [lit "npm run lint"];
              interceptPatterns := None |}
           config' [lit "npm run lint"] [lit "npm test"; lit "npm run lint"]);
    [reflexivity | reflexivity | | reflexivity].
  intros entry Hin. by right.
Defined.

(** ** More on interception *)

Lemma anyEntry_perm command entries entries' :
  entries ≡ₚ entries' -> anyEntry command entries = anyEntry command entries'.
Proof.
  intros Hp. apply eq_true_iff_eq. rewrite !anyEntry_spec.
  by setoid_rewrite Hp.
Qed.

(** X13. The order of the entries of [interceptPatterns] does not matter. *)
Theorem intercept_order_irrelevant command config config' entries entries' :
  interceptPatterns config = Some entries ->
  interceptPatterns config' = Some entries' ->
  entries ≡ₚ entries' ->
  shouldIntercept command config = shouldIntercept command config'.
Proof.
  unfold shouldIntercept. intros -> -> Hp. by apply anyEntry_perm.
Qed.

Lemma intercept_order_irrelevant_witness :
  let config entries := {| containerName := None; enforcement := None;
                           allowedHostCommands := None;
                           interceptPatterns := Some entries |} in
  shouldIntercept (lit "node app.js") (config [(npm, true); (node, true)])
  = shouldIntercept (lit "node app.js") (config [(node, true); (npm, true)]).
Proof.
  intros config.
  apply (intercept_order_irrelevant (lit "node app.js")
           (config [(npm, true); (node, true)]) (config [(node, true); (npm, true)])
           [(npm, true); (node, true)] [(node, true); (npm, true)]);
    [reflexivity | reflexivity | apply perm_swap].
Defined.

(** X14. An intercepted command starts with the name of a tool that the
    intercept table enables, followed by a white-space character. *)
Theorem intercepted_command_shape command config :
  shouldIntercept command config = true ->
  ∃ tool c rest,
    command = toolName tool ++ c :: rest
    ∧ isWhiteSpace c = true
    ∧ (∀ entries, interceptPatterns config = Some entries -> (tool, true) ∈ entries).
Proof.
  unfold shouldIntercept. intros (tool & Hin & Ht)%anyEntry_spec.
  apply test_toolName in Ht as (c & rest & -> & Hc).
  exists tool, c, rest. split; [done|]. split; [done|].
  intros entries Hp. by rewrite Hp in Hin.
Qed.

Lemma intercepted_command_shape_witness :
  ∃ tool c rest,
    lit "pnpm add zod" = toolName tool ++ c :: rest ∧ isWhiteSpace c = true.
Proof.
  destruct (intercepted_command_shape (lit "pnpm add zod") DEFAULT_CONFIG eq_refl)
    as (tool & c & rest & Heq & Hc & _).
  by exists tool, c, rest.
Defined.

(** X15. The patterns are anchored at the first character: a command that
    starts with white space is never intercepted. *)
Theorem leading_white_space_is_not_intercepted c command config :
  isWhiteSpace c = true -> shouldIntercept (c :: command) config = false.
Proof.
  intros Hc. apply not_true_iff_false. unfold shouldIntercept.
  intros (tool & _ & (c' & rest & Heq & _)%test_toolName)%anyEntry_spec.
  destruct tool; vm_compute in Heq; simplify_eq; vm_compute in Hc; discriminate Hc.
Qed.

Lemma leading_white_space_is_not_intercepted_witness :
  shouldIntercept (lit " npm install") DEFAULT_CONFIG = false.
Proof.
  apply (leading_white_space_is_not_intercepted 32 (lit "npm install") DEFAULT_CONFIG).
  reflexivity.
Defined.

(** X16. When every entry of [interceptPatterns] is false (or the object is
    empty), no command is intercepted. *)
Theorem disabled_tools_do_not_intercept command config entries :
  interceptPatterns config = Some entries ->
  Forall (fun entry => snd entry = false) entries ->
  shouldIntercept command config = false.
Proof.
  unfold shouldIntercept. intros -> Hall. apply not_true_iff_false.
  intros (tool & Hin & _)%anyEntry_spec.
  rewrite Forall_forall in Hall. by apply Hall in Hin.
Qed.

Lemma disabled_tools_do_not_intercept_witness :
  let config := {| containerName := None; enforcement := None;
                   allowedHostCommands := None;
                   interceptPatterns := Some [(npm, false); (node, false)] |} in
  shouldIntercept (lit "npm install") config = false.
Proof.
  intros config.
  apply (disabled_tools_do_not_intercept (lit "npm install") config
           [(npm, false); (node, false)]); [reflexivity|].
  by repeat constructor.
Defined.

(** X17. What the seven patterns accept.  For [npx], [node] and [tsx]: the
    name of the tool and one white-space character, followed by anything.
    For [npm], [yarn], [pnpm] and [bun]: the name of the tool, one or more
    white-space characters, and text that starts with one of the
    sub-commands of the tool. *)
Theorem intercept_patterns_table command :
  (∀ tool, tool ∈ [npx; node; tsx] ->
     (test (INTERCEPT_PATTERNS tool) command = true <->
      ∃ c rest, command = toolName tool ++ c :: rest ∧ isWhiteSpace c = true))
  ∧ (∀ tool subs,
       (tool, subs) ∈ [(npm, [lit "install"; lit "ci"; lit "run"; lit "test";
                              lit "exec"; lit "start"; lit "build"]);
                       (yarn, [lit "add"; lit "install"; lit "run"; lit "start";
                               lit "build"]);
                       (pnpm, [lit "add"; lit "install"; lit "run"; lit "start";
                               lit "build"]);
                       (bun, [lit "run"; lit "install"; lit "add"])] ->
       (test (INTERCEPT_PATTERNS tool) command = true <->
        ∃ blanks sub rest,
          command = toolName tool ++ blanks ++ sub ++ rest
          ∧ blanks ≠ []
          ∧ Forall (fun c => isWhiteSpace c = true) blanks
          ∧ sub ∈ subs)).
Proof.
  split.
  - intros tool Hin. repeat (apply elem_of_cons in Hin as [->|Hin]);
      [apply test_word_ws .. | by apply not_elem_of_nil in Hin].
  - intros tool subs Hin. repeat (apply elem_of_cons in Hin as [[= -> ->]|Hin]);
      [apply test_word_ws_oneOf .. | by apply not_elem_of_nil in Hin].
Qed.

Lemma intercept_patterns_table_witness :
  test (INTERCEPT_PATTERNS node) (lit "node app.js") = true
  ∧ test (INTERCEPT_PATTERNS bun) (lit "bun  install") = true.
Proof.
  destruct (intercept_patterns_table (lit "node app.js")) as [Hword _].
  destruct (intercept_patterns_table (lit "bun  install")) as [_ Hsub].
  split.
  - apply (Hword node); [by right; left|].
    by exists 32, (lit "app.js").
  - apply (Hsub bun [lit "run"; lit "install"; lit "add"]).
    + by do 3 right; left.
    + exists (lit "  "), (lit "install"), []. split; [reflexivity|].
      split; [done|]. split; [by repeat constructor | by right; left].
Defined.

(** ** The listing of the running containers *)

Lemma split_app_sep sep a b :
  split sep (a ++ sep :: b) = split sep a ++ split sep b.
Proof.
  induction a as [|c a IH]; cbn [app split].
  - by rewrite bool_decide_true.
  - case_bool_decide; [by rewrite IH|].
    rewrite IH. pose proof (split_nonempty sep a).
    by destruct (split sep a).
Qed.

Lemma split_no_sep sep s : sep ∉ s -> split sep s = [s].
Proof.
  induction s as [|c s IH]; [done|]. intros Hn. cbn [split].
  apply not_elem_of_cons in Hn as [Hc Hs].
  rewrite bool_decide_false by done. by rewrite IH.
Qed.

Lemma split_lines sep names :
  Forall (fun name => sep ∉ name) names ->
  split sep (concat (map (fun name => name ++ [sep]) names)) = names ++ [[]].
Proof.
  induction 1 as [|name names Hn _ IH]; [done|].
  cbn [map concat]. rewrite <- app_assoc. cbn [app].
  by rewrite split_app_sep, split_no_sep, IH.
Qed.

(** X18. When the listing call prints one container name per line, each
    followed by a line feed, the status check of a name answers true exactly
    when the name is one of those printed, or is the empty string. *)
Theorem running_iff_listed containerName env names :
  Forall (fun name => LF ∉ name) names ->
  dockerPs env = Some (concat (map (fun name => name ++ [LF]) names)) ->
  (isContainerRunning containerName env = true <->
   containerName ∈ names ∨ containerName = []).
Proof.
  intros Hn Hps. unfold isContainerRunning, includes. rewrite Hps.
  rewrite bool_decide_eq_true, split_lines by done.
  rewrite elem_of_app, list_elem_of_singleton. done.
Qed.

Lemma running_iff_listed_witness :
  let env := sampleEnv Missing (Some (lit "db" ++ [LF] ++ lit "dev" ++ [LF])) in
  isContainerRunning (lit "dev") env = true.
Proof.
  intros env.
  apply (running_iff_listed (lit "dev") env [lit "db"; lit "dev"]).
  - repeat constructor; vm_compute; intros H;
      repeat (apply elem_of_cons in H as [H|H]; [discriminate H|]);
      by apply not_elem_of_nil in H.
  - reflexivity.
  - left. by right; left.
Defined.

Lemma joinWith_middle sep l1 piece l2 :
  ∃ before after,
    joinWith [sep] (l1 ++ piece :: l2) = before ++ piece ++ after
    ∧ (before = [] ∨ ∃ before', before = before' ++ [sep])
    ∧ (after = [] ∨ ∃ after', after = sep :: after').
Proof.
  induction l1 as [|p l1 (before & after & E & Hb & Ha)].
  - destruct l2 as [|q l2].
    + exists [], []. cbn. rewrite app_nil_r. repeat split; by left.
    + exists [], (sep :: joinWith [sep] (q :: l2)).
      split; [done|]. split; [by left | right; by eexists].
  - exists (p ++ sep :: before), after.
    assert (joinWith [sep] ((p :: l1) ++ piece :: l2)
            = p ++ sep :: joinWith [sep] (l1 ++ piece :: l2)) as ->.
    { by destruct l1. }
    rewrite E, <- !app_assoc. split; [done|]. split; [|done].
    right. destruct Hb as [->|[before' ->]].
    + by exists p.
    + exists (p ++ sep :: before'). by rewrite <- app_assoc.
Qed.

(** X19. A name that the status check reports as running contains no line
    feed and is a whole line of the listing: it is preceded by the start of
    the output or a line feed and followed by a line feed or the end of the
    output. *)
Theorem running_name_is_a_line containerName env :
  isContainerRunning containerName env = true ->
  (LF ∉ containerName)
  ∧ ∃ output before after,
      dockerPs env = Some output
      ∧ output = before ++ containerName ++ after
      ∧ (before = [] ∨ ∃ before', before = before' ++ [LF])
      ∧ (after = [] ∨ ∃ after', after = LF :: after').
Proof.
  unfold isContainerRunning, includes.
  destruct (dockerPs env) as [output|]; [|done].
  intros Hin%bool_decide_eq_true.
  split; [by apply (split_pieces LF output)|].
  exists output.
  apply list_elem_of_split in Hin as (l1 & l2 & Hsplit).
  pose proof (joinWith_split LF output) as Hjoin. rewrite Hsplit in Hjoin.
  destruct (joinWith_middle LF l1 containerName l2) as (before & after & E & Hb & Ha).
  exists before, after. by rewrite <- Hjoin, E.
Qed.

Lemma running_name_is_a_line_witness :
  let env := sampleEnv Missing (Some (lit "db" ++ [LF] ++ lit "dev" ++ [LF])) in
  ∃ output before after,
    dockerPs env = Some output ∧ output = before ++ lit "dev" ++ after.
Proof.
  intros env.
  destruct (running_name_is_a_line (lit "dev") env eq_refl)
    as (_ & output & before & after & Hps & Hout & _).
  by exists output, before, after.
Defined.

(** ** Equivalent command lines *)

Lemma joinWith_cons_cons sep x y l :
  joinWith sep (x :: y :: l) = x ++ sep ++ joinWith sep (y :: l).
Proof. done. Qed.

Lemma main_enforce_cmd action_arg action_arg' command command' env :
  enforceCmd action_arg command = enforceCmd action_arg' command' ->
  main_enforce action_arg command env = main_enforce action_arg' command' env.
Proof. intros H. unfold main_enforce. by rewrite H. Qed.

(** X20. When no argument is empty and the first one is not the name of a
    sub-command, leaving out the word [enforce] changes nothing: the two
    command lines print the same and exit with the same code. *)
Theorem default_is_enforce first rest env :
  first ∉ [lit "check"; lit "validate"; lit "transform"; lit "enforce"] ->
  Forall (fun arg => arg ≠ []) (first :: rest) ->
  main (first :: rest) env = main (lit "enforce" :: first :: rest) env.
Proof.
  intros Hsub Hne. apply Forall_cons in Hne as [Hfirst Hrest].
  assert (∀ sub, sub ∈ [lit "check"; lit "validate"; lit "transform"; lit "enforce"] ->
                 Some first ≠ Some sub) as Hns.
  { intros sub Hin [= ->]. done. }
  assert (∀ sub, In sub [lit "check"; lit "validate"; lit "transform"; lit "enforce"] ->
                 bool_decide (Some first = Some sub) = false) as Hb.
  { intros sub Hin. apply bool_decide_false, Hns. by apply list_elem_of_In. }
  unfold main. cbn [head tail].
  rewrite !Hb by (cbn; tauto).
  rewrite !(bool_decide_false (Some (lit "enforce") = _)) by done.
  apply main_enforce_cmd. unfold enforceCmd.
  rewrite Hb by (cbn; tauto).
  rewrite bool_decide_true by done.
  cbn [filterBoolean]. apply truthyString_true in Hfirst. rewrite Hfirst.
  destruct rest as [|second rest]; [done|].
  apply Forall_cons in Hrest as [Hsecond _].
  assert (truthyString (joinWith SPACE (second :: rest)) = true) as ->.
  { apply truthyString_true. destruct second; [done|]. by destruct rest. }
  by rewrite joinWith_cons_cons.
Qed.

Lemma default_is_enforce_witness :
  let env := sampleEnv Missing None in
  main [lit "npm"; lit "install"] env = main [lit "enforce"; lit "npm"; lit "install"] env.
Proof.
  intros env.
  apply (default_is_enforce (lit "npm") [lit "install"] env).
  - intros H. repeat (apply elem_of_cons in H as [H|H]; [discriminate H|]).
    by apply not_elem_of_nil in H.
  - by repeat constructor.
Defined.

(** ** Without a usable configuration file *)

Lemma shouldIntercept_default command :
  shouldIntercept command DEFAULT_CONFIG = true <->
  ∃ tool, test (INTERCEPT_PATTERNS tool) command = true.
Proof.
  unfold shouldIntercept. cbn [interceptPatterns DEFAULT_CONFIG default].
  rewrite anyEntry_spec. split.
  - intros (tool & _ & Ht). by exists tool.
  - intros (tool & Ht). exists tool. split; [|done].
    apply list_elem_of_In. destruct tool; cbn; tauto.
Qed.

Lemma loadConfig_no_file projectPath env :
  fileAt env (configPathOf projectPath env) = Missing
  ∨ fileAt env (configPathOf projectPath env) = Unreadable ->
  fst (loadConfig projectPath env) = Done DEFAULT_CONFIG.
Proof. unfold loadConfig. by intros [-> | ->]. Qed.

(** X21. Without a configuration file, or with one that cannot be read or
    parsed, [enforce] blocks the commands that match one of the seven
    patterns and allows all the others. *)
Theorem default_policy command projectPath env :
  fileAt env (configPathOf projectPath env) = Missing
  ∨ fileAt env (configPathOf projectPath env) = Unreadable ->
  fst (enforce command projectPath env)
  = Done (if shouldIntercept command DEFAULT_CONFIG
          then {| action := act_block;
                  message := Some (lit "Docker-first policy violation");
                  transformedCommand := None |}
          else {| action := act_allow; message := None; transformedCommand := None |})
  ∧ (shouldIntercept command DEFAULT_CONFIG = true <->
     ∃ tool, test (INTERCEPT_PATTERNS tool) command = true).
Proof.
  intros Hf. split; [|apply shouldIntercept_default].
  unfold enforce. rewrite (fst_bind_done _ _ _ (loadConfig_no_file _ _ Hf)).
  cbn [enforcement DEFAULT_CONFIG]. rewrite bool_decide_false by done.
  destruct (shouldIntercept command DEFAULT_CONFIG); [|done].
  cbn [negb]. change (isAllowed command DEFAULT_CONFIG) with false. cbn iota.
  by rewrite (fst_bind_done _ _ _ (showBlockMessage_done _ _)).
Qed.

Lemma default_policy_witness :
  fst (enforce (lit "npx prettier .") None (sampleEnv Unreadable None))
  = Done {| action := act_block;
            message := Some (lit "Docker-first policy violation");
            transformedCommand := None |}
  ∧ fst (enforce (lit "git status") None (sampleEnv Missing None))
    = Done {| action := act_allow; message := None; transformedCommand := None |}.
Proof.
  split.
  - apply (default_policy (lit "npx prettier .") None (sampleEnv Unreadable None)).
    by right.
  - apply (default_policy (lit "git status") None (sampleEnv Missing None)).
    by left.
Defined.

(** X22. A configuration file that cannot be read or parsed has the effect
    of a missing one: for every command line the exit code is the same, and
    the output is the same except for one warning line that comes first
    when the configuration is loaded.  Neither run depends on the container
    runtime. *)
Theorem unreadable_is_missing_with_warning args env env' :
  fileAt env (configPathOf None env) = Unreadable ->
  fileAt env' (configPathOf None env') = Missing ->
  fst (run (main args env)) = fst (run (main args env'))
  ∧ (snd (run (main args env)) = snd (run (main args env'))
     ∨ snd (run (main args env))
       = (stderr, colors.yellow ++ lit "Warning: Could not parse "
                  ++ configPathOf None env ++ colors.reset)
         :: snd (run (main args env'))).
Proof.
  intros Hf Hf'.
  assert (loadConfig None env
          = (Done DEFAULT_CONFIG,
             [(stderr, colors.yellow ++ lit "Warning: Could not parse "
                       ++ configPathOf None env ++ colors.reset)])) as E.
  { unfold loadConfig. by rewrite Hf. }
  assert (loadConfig None env' = (Done DEFAULT_CONFIG, [])) as E'.
  { unfold loadConfig. by rewrite Hf'. }
  unfold main, main_check, main_validate, main_transform, main_enforce, enforce.
  rewrite E, E'.
  repeat case_bool_decide.
  - destruct (truthyString _); cbn [negb]; [|by split; [|left]].
    rewrite !(bind_done _ _ tt []) by done.
    rewrite !(bind_done _ _ _ _ eq_refl).
    destruct (shouldIntercept _ _ && _); cbn; split; try done; by right.
  - rewrite !(bind_done _ _ _ _ eq_refl). cbn. split; [done | by right].
  - destruct (truthyString _); cbn [negb]; [|by split; [|left]].
    rewrite !(bind_done _ _ tt []) by done.
    rewrite !(bind_done _ _ _ _ eq_refl). cbn. split; [done | by right].
  - destruct (truthyString _); cbn [negb]; [|by split; [|left]].
    rewrite !(bind_done _ _ tt []) by done.
    rewrite !(bind_done _ _ _ _ eq_refl).
    cbn [enforcement DEFAULT_CONFIG fst snd]. rewrite !bool_decide_false by done.
    destruct (shouldIntercept _ DEFAULT_CONFIG); cbn; split; try done; by right.
Qed.

Lemma unreadable_is_missing_with_warning_witness :
  fst (run (main [lit "node"; lit "app.js"] (sampleEnv Unreadable None)))
  = fst (run (main [lit "node"; lit "app.js"] (sampleEnv Missing (Some (lit "dev"))))).
Proof.
  apply (unreadable_is_missing_with_warning [lit "node"; lit "app.js"]
           (sampleEnv Unreadable None) (sampleEnv Missing (Some (lit "dev"))));
    reflexivity.
Defined.

(** ** [check] and the enforce path *)

Lemma enforce_block_subject command projectPath env config result :
  fst (loadConfig projectPath env) = Done config ->
  fst (enforce command projectPath env) = Done result ->
  (action result = act_block -> subjectToPolicy command config = true)
  ∧ (enforcement config = Some mode_block ->
     subjectToPolicy command config = true -> action result = act_block).
Proof.
  intros Hc. unfold enforce, subjectToPolicy. rewrite (fst_bind_done _ _ _ Hc).
  case_bool_decide as Hd; [intros [= <-]; split; [done | congruence]|].
  destruct (shouldIntercept command config); [|by intros [= <-]].
  destruct (isAllowed command config); [by intros [= <-]|]. cbn [negb andb].
  destruct (enforcement config) as [[]|];
    rewrite ?(fst_bind_done _ _ _ (showBlockMessage_done _ _)),
            ?(fst_bind_done _ _ _ (showWarning_done _ _));
    try (intros [= <-]; by split).
  destruct (containerName config) as [[|c name]|]; cbn [ifTruthy];
    try (intros [= <-]; by split).
  destruct (isContainerRunning (c :: name) env); intros [= <-]; by split.
Qed.

(** X23. For a non-empty command, when the enforce path exits with code 1
    the [check] sub-command exits with code 1 too; under the mode [block]
    the two exit codes are equal. *)
Theorem check_predicts_enforce command env config :
  command ≠ [] ->
  fst (loadConfig None env) = Done config ->
  (fst (run (main [lit "enforce"; command] env)) = 1%nat ->
   fst (run (main [lit "check"; command] env)) = 1%nat)
  ∧ (enforcement config = Some mode_block ->
     fst (run (main [lit "enforce"; command] env))
     = fst (run (main [lit "check"; command] env))).
Proof.
  intros Hne Hc.
  destruct (enforce_done command None env) as [result Hr].
  destruct (enforce_block_subject _ _ _ _ _ Hc Hr) as [Hsound Hcomplete].
  rewrite (main_check_eq [lit "check"; command] env eq_refl).
  rewrite (main_enforce_eq [lit "enforce"; command] env) by done.
  change (joinWith SPACE (tail [lit "check"; command])) with command.
  change (joinWith SPACE (tail [lit "enforce"; command])) with command.
  change (head [lit "enforce"; command]) with (Some (lit "enforce")).
  rewrite (main_check_run _ _ config) by done.
  rewrite (main_enforce_run _ _ _ result) by done.
  fold (subjectToPolicy command config). cbn [fst].
  split.
  - case_bool_decide as Hb; [|done]. intros _. by rewrite (Hsound Hb).
  - intros Hm. destruct (subjectToPolicy command config) eqn:Hs.
    + by rewrite bool_decide_true by (by apply Hcomplete).
    + case_bool_decide as Hb; [|done]. by apply Hsound in Hb.
Qed.

Lemma check_predicts_enforce_witness :
  let env := sampleEnv Missing None in
  fst (run (main [lit "enforce"; lit "npm ci"] env))
  = fst (run (main [lit "check"; lit "npm ci"] env)).
Proof.
  intros env.
  apply (check_predicts_enforce (lit "npm ci") env DEFAULT_CONFIG); done.
Defined.

(** ** A command line without a command *)

(** X24. Without a command, the [check] and [transform] sub-commands and the
    enforce path print their usage line on standard error and exit with
    code 1, without loading the configuration. *)
Theorem missing_command_is_usage_error args env :
  joinWith SPACE (tail args) = [] ->
  (head args = Some (lit "check") ->
   run (main args env) = (1%nat, [(stderr, lit "Usage: enforce.ts check <command>")]))
  ∧ (head args = Some (lit "transform") ->
     run (main args env)
     = (1%nat, [(stderr, lit "Usage: enforce.ts transform <command>")]))
  ∧ (head args = Some (lit "enforce") ∨ head args = Some [] ∨ head args = None ->
     run (main args env)
     = (1%nat, [(stderr, lit "Usage: enforce.ts [enforce] <command>")])).
Proof.
  intros Hcmd. split; [|split].
  - intros Hh. rewrite (main_check_eq _ _ Hh). unfold main_check. by rewrite Hcmd.
  - intros Hh. rewrite (main_transform_eq _ _ Hh). unfold main_transform.
    by rewrite Hcmd.
  - intros Hh. rewrite main_enforce_eq by (destruct Hh as [->|[->| ->]]; done).
    unfold main_enforce, enforceCmd. rewrite Hcmd.
    by destruct Hh as [->|[->| ->]].
Qed.

Lemma missing_command_is_usage_error_witness :
  let env := sampleEnv Missing None in
  run (main [lit "check"] env)
  = (1%nat, [(stderr, lit "Usage: enforce.ts check <command>")])
  ∧ run (main [] env)
    = (1%nat, [(stderr, lit "Usage: enforce.ts [enforce] <command>")]).
Proof.
  intros env. split.
  - by apply (missing_command_is_usage_error [lit "check"] env eq_refl).
  - apply (missing_command_is_usage_error [] env eq_refl). by right; right.
Defined.
